(** * eCommerce.cpp: the checkout transaction, embedded and verified

    The program keeps a catalog of products behind [shared_ptr<Product>],
    a cart of line items that alias those products, a customer with a
    prepaid balance, and [CheckoutService::checkout], which validates the
    cart, charges the customer, decrements the stock and prints a shipment
    notice and a receipt on [cout].

    The embedding follows the source method by method:
    - [int] is a [Z] (signed overflow is undefined behaviour in C++, and is
      an outcome of its own here), [double] is the kernel's binary64 float,
      [time_t] is a [Z];
    - objects reached through [shared_ptr] live in a heap indexed by
      addresses, so that two cart items may alias one product;
    - a method is a computation over the world that ends by returning,
      by throwing [runtime_error], or in undefined behaviour (a null
      pointer dereferenced, an [int] overflow); a thrown exception keeps
      every mutation made before it, as in C++;
    - [time(nullptr)] reads a clock that the world carries: its k-th
      reading is any value, so time may pass between two readings;
    - [cout] keeps its text and its format flags, and numbers are printed
      as the C library prints them. *)

From Stdlib Require Import Floats.PrimFloat Floats.FloatOps Floats.SpecFloat.
From Stdlib Require Import ZArith String Ascii List Lia Bool.
From Stdlib Require Import Numbers.DecimalString Numbers.Cyclic.Int63.Uint63.
From stdpp Require Import gmap strings.

Local Open Scope Z_scope.
Set Warnings "-inexact-float".

(** ** Machine types *)

Definition int_min : Z := - 2 ^ 31.
Definition int_max : Z := 2 ^ 31 - 1.

(** [in_int z]: [z] is representable in a 32-bit [int]. *)
Definition in_int (z : Z) : bool := (int_min <=? z) && (z <=? int_max).

Abbreviation double := float (only parsing).
Abbreviation time_t := Z (only parsing).

(** The implicit conversion [int -> double] (exact on the whole [int] range). *)
Definition double_of_int (z : Z) : double :=
  if z <? 0 then (- PrimFloat.of_uint63 (Uint63.of_Z (- z)))%float
  else PrimFloat.of_uint63 (Uint63.of_Z z).

(** ** Text formatting of [operator<<]

    [operator<<(int)] prints the decimal numeral.  [operator<<(double)]
    prints as [printf] does with [%.*f] when the stream is [fixed] and with
    [%.*g] otherwise; both round the exact binary value half-to-even. *)

Module Fmt.

Definition of_int (z : Z) : string := NilZero.string_of_int (Z.to_int z).

Fixpoint zeros (n : nat) : string :=
  match n with
  | O => EmptyString
  | S n' => String "0" (zeros n')
  end.

Definition pad_zeros (width : nat) (s : string) : string :=
  zeros (width - String.length s) +:+ s.

(** Drops the trailing zeros of a digit string (all of it when it only has zeros). *)
Fixpoint strip_zeros (s : string) : string :=
  match s with
  | EmptyString => EmptyString
  | String c r =>
      match strip_zeros r with
      | EmptyString => if Ascii.eqb c "0" then EmptyString else String c EmptyString
      | r' => String c r'
      end
  end.

Definition sign (s : bool) : string := if s then "-" else "".

(** [num / den] rounded to the nearest integer, ties to even ([0 < den]). *)
Definition round_half_even (num den : Z) : Z :=
  let q := num / den in
  let r := num mod den in
  if (den <? 2 * r) || ((den =? 2 * r) && Z.odd q) then q + 1 else q.

(** The value [m * 2^e * 10^k] as a fraction. *)
Definition scaled (m : positive) (e k : Z) : Z * Z :=
  (Z.pos m * (if 0 <=? e then 2 ^ e else 1) * (if 0 <=? k then 10 ^ k else 1),
   (if 0 <=? e then 1 else 2 ^ (- e)) * (if 0 <=? k then 1 else 10 ^ (- k))).

Definition scaled_round (m : positive) (e k : Z) : Z :=
  let '(num, den) := scaled m e k in round_half_even num den.

(** [1 <= m * 2^e * 10^k]. *)
Definition scaled_ge_1 (m : positive) (e k : Z) : bool :=
  let '(num, den) := scaled m e k in den <=? num.

(** The decimal exponent of [m * 2^e]: the largest [x] with [10^x <= m * 2^e]. *)
Definition decimal_exponent (m : positive) (e : Z) : Z :=
  let b := Z.log2 (Z.pos m) + e in
  let x := b * 30103 / 100000 in
  if scaled_ge_1 m e (- (x + 1)) then x + 1
  else if scaled_ge_1 m e (- x) then x
  else x - 1.

(** The integer [n] read with its last [prec] digits after the point. *)
Definition point (strip : bool) (prec : nat) (n : Z) : string :=
  let p := 10 ^ Z.of_nat prec in
  let frac :=
    match prec with
    | O => EmptyString
    | _ => pad_zeros prec (of_int (n mod p))
    end in
  let frac := if strip then strip_zeros frac else frac in
  of_int (n / p) +:+
  match frac with
  | EmptyString => EmptyString
  | _ => "." +:+ frac
  end.

(** [printf("%.<prec>f", x)] *)
Definition fixed (prec : nat) (x : double) : string :=
  match Prim2SF x with
  | S754_nan => "nan"
  | S754_infinity s => sign s +:+ "inf"
  | S754_zero s => sign s +:+ point false prec 0
  | S754_finite s m e => sign s +:+ point false prec (scaled_round m e (Z.of_nat prec))
  end.

Definition exponent (x : Z) : string :=
  (if x <? 0 then "e-" else "e+") +:+ pad_zeros 2 (of_int (Z.abs x)).

(** [printf("%.<prec>g", x)]: [P] significant digits ([P = 1] for
    [prec = 0]), in positional notation when the decimal exponent [X] of the
    rounded value has [-4 <= X < P] and in scientific notation otherwise,
    trailing zeros removed. *)
Definition general (prec : nat) (x : double) : string :=
  let P := Z.max 1 (Z.of_nat prec) in
  match Prim2SF x with
  | S754_nan => "nan"
  | S754_infinity s => sign s +:+ "inf"
  | S754_zero s => sign s +:+ "0"
  | S754_finite s m e =>
      let x0 := decimal_exponent m e in
      let X := if 10 ^ P <=? scaled_round m e (P - 1 - x0) then x0 + 1 else x0 in
      let D := scaled_round m e (P - 1 - X) in
      sign s +:+
      (if (-4 <=? X) && (X <? P)
       then point true (Z.to_nat (P - 1 - X)) D
       else point true (Z.to_nat (P - 1)) D +:+ exponent X)
  end.

End Fmt.

Definition nl : string := String (ascii_of_nat 10) EmptyString.
Definition tab : string := String (ascii_of_nat 9) EmptyString.

(** ** Objects *)

(** The address held by a [shared_ptr]; an address absent from the heap
    plays the null pointer. *)
Abbreviation ptr := positive (only parsing).

(** The classes derived from [Product]. *)
Inductive ProductClass : Type :=
| ExpirableProduct (expiryDate : time_t)
| ShippableProduct (weight : double)
| DigitalProduct.

Module Product.
Record t : Type := mk
  { name : string; price : double; quantity : Z; class : ProductClass }.

Definition set_quantity (q : Z) (this : t) : t :=
  {| name := name this; price := price this; quantity := q; class := class this |}.

(** [virtual bool isShippable() const] and its three overriders. *)
Definition isShippable (this : t) : bool :=
  match class this with
  | ExpirableProduct _ => true
  | ShippableProduct _ => true
  | DigitalProduct => false
  end.

(** [virtual bool isExpired() const] when [time(nullptr)] reads [now]. *)
Definition isExpired_at (now : time_t) (this : t) : bool :=
  match class this with
  | ExpirableProduct expiryDate => expiryDate <? now
  | ShippableProduct _ => false
  | DigitalProduct => false
  end.

(** Only [ShippableProduct] derives from the interface [Shippable]. *)
Definition derives_Shippable (this : t) : bool :=
  match class this with
  | ShippableProduct _ => true
  | _ => false
  end.
End Product.

Module CartItem.
Record t : Type := mk { product : ptr; quantity : Z }.
End CartItem.

Module Customer.
Record t : Type := mk { name : string; balance : double }.
End Customer.

(** [cout]: the text written so far and the two format flags the program sets. *)
Record ostream : Type := mk_ostream
  { written : string; floatfield_fixed : bool; precision : nat }.

Record World : Type := mkWorld
  { heap : gmap ptr Product.t;     (* the products owned through shared_ptr *)
    cart : list CartItem.t;        (* Cart::items *)
    customer : Customer.t;
    cout : ostream;
    clock : nat -> time_t;         (* what the k-th call of time(nullptr) returns *)
    ticks : nat }.                 (* the calls of time(nullptr) made so far *)

Definition set_heap (h : gmap ptr Product.t) (w : World) : World :=
  {| heap := h; cart := cart w; customer := customer w; cout := cout w;
     clock := clock w; ticks := ticks w |}.
Definition set_cart (c : list CartItem.t) (w : World) : World :=
  {| heap := heap w; cart := c; customer := customer w; cout := cout w;
     clock := clock w; ticks := ticks w |}.
Definition set_customer (c : Customer.t) (w : World) : World :=
  {| heap := heap w; cart := cart w; customer := c; cout := cout w;
     clock := clock w; ticks := ticks w |}.
Definition set_cout (o : ostream) (w : World) : World :=
  {| heap := heap w; cart := cart w; customer := customer w; cout := o;
     clock := clock w; ticks := ticks w |}.
Definition set_ticks (n : nat) (w : World) : World :=
  {| heap := heap w; cart := cart w; customer := customer w; cout := cout w;
     clock := clock w; ticks := n |}.

(** ** Computations *)

Inductive outcome (A : Type) : Type :=
| Return (a : A)
| Throw (what : string)      (* throw runtime_error(what) *)
| Undefined.                 (* undefined behaviour *)
Arguments Return {A} a.
Arguments Throw {A} what.
Arguments Undefined {A}.

Definition M (A : Type) : Type := World -> outcome A * World.

Definition ret {A} (a : A) : M A := fun w => (Return a, w).
Definition throw {A} (what : string) : M A := fun w => (Throw what, w).
Definition undefined {A} : M A := fun w => (Undefined, w).
Definition gets {A} (f : World -> A) : M A := fun w => (Return (f w), w).
Definition modify (f : World -> World) : M unit := fun w => (Return tt, f w).

Definition bind {A B} (m : M A) (k : A -> M B) : M B :=
  fun w =>
    match m w with
    | (Return a, w') => k a w'
    | (Throw what, w') => (Throw what, w')
    | (Undefined, w') => (Undefined, w')
    end.

Declare Scope cpp_scope.
Delimit Scope cpp_scope with cpp.
Notation "x <- m ;; k" := (bind m (fun x => k))
  (at level 100, m at next level, k at level 200, right associativity) : cpp_scope.
Notation "m ;; k" := (bind m (fun _ => k))
  (at level 100, k at level 200, right associativity) : cpp_scope.
Local Open Scope cpp_scope.

(** [for (const auto& x : l) body] *)
Fixpoint for_each {A} (l : list A) (body : A -> M unit) : M unit :=
  match l with
  | [] => ret tt
  | x :: l' => body x;; for_each l' body
  end.

(** The same loop updating a local variable of the enclosing function. *)
Fixpoint for_fold {A S} (l : list A) (body : S -> A -> M S) (s : S) : M S :=
  match l with
  | [] => ret s
  | x :: l' => s' <- body s x;; for_fold l' body s'
  end.

(** ** Pointers *)

(** [*p]: dereferencing a null pointer is undefined. *)
Definition deref (p : ptr) : M Product.t :=
  fun w =>
    match heap w !! p with
    | Some this => (Return this, w)
    | None => (Undefined, w)
    end.

Definition store (p : ptr) (o : Product.t) : M unit :=
  modify (fun w => set_heap (<[p := o]> (heap w)) w).

(** [dynamic_pointer_cast<Shippable>(p)]: null unless the object derives
    from [Shippable]; the cast of a null pointer is null. *)
Definition dynamic_pointer_cast_Shippable (p : ptr) : M (option ptr) :=
  fun w =>
    (Return match heap w !! p with
            | Some this => if Product.derives_Shippable this then Some p else None
            | None => None
            end, w).

(** [time(nullptr)] *)
Definition time : M time_t :=
  fun w => (Return (clock w (ticks w)), set_ticks (S (ticks w)) w).

(** ** class Product *)

Definition getName (this : ptr) : M string :=
  o <- deref this;; ret (Product.name o).

Definition getPrice (this : ptr) : M double :=
  o <- deref this;; ret (Product.price o).

Definition getQuantity (this : ptr) : M Z :=
  o <- deref this;; ret (Product.quantity o).

Definition reduceQuantity (this : ptr) (amount : Z) : M unit :=
  o <- deref this;;
  if Product.quantity o <? amount then throw "Not enough stock."
  else if in_int (Product.quantity o - amount)
       then store this (Product.set_quantity (Product.quantity o - amount) o)
       else undefined.

Definition isExpired (this : ptr) : M bool :=
  o <- deref this;;
  match Product.class o with
  | ExpirableProduct expiryDate => now <- time;; ret (expiryDate <? now)
  | ShippableProduct _ => ret false
  | DigitalProduct => ret false
  end.

(** ** class Shippable, as overridden by ShippableProduct *)

Definition getWeight (this : ptr) : M double :=
  o <- deref this;;
  match Product.class o with
  | ShippableProduct weight => ret weight
  | _ => undefined
  end.

Definition Shippable_getName (this : ptr) : M string :=
  o <- deref this;;
  match Product.class o with
  | ShippableProduct _ => ret (Product.name o)
  | _ => undefined
  end.

(** ** struct CartItem *)

Definition getTotalPrice (this : CartItem.t) : M double :=
  p <- getPrice (CartItem.product this);;
  ret (p * double_of_int (CartItem.quantity this))%float.

(** ** class Cart *)

Definition addToCart (product : ptr) (quantity : Z) : M unit :=
  stock <- getQuantity product;;
  if stock <? quantity then throw "Insufficient stock."
  else modify (fun w => set_cart (cart w ++ [CartItem.mk product quantity]) w).

Definition getItems : M (list CartItem.t) := gets cart.

Definition isEmpty : M bool :=
  items <- gets cart;;
  ret match items with [] => true | _ :: _ => false end.

Definition calculateSubtotal : M double :=
  items <- gets cart;;
  for_fold items
    (fun sum item => t <- getTotalPrice item;; ret (sum + t)%float)
    0%float.

Definition calculateShippingFee : M double :=
  items <- gets cart;;
  for_fold items
    (fun fee item =>
       shippable <- dynamic_pointer_cast_Shippable (CartItem.product item);;
       match shippable with
       | Some s =>
           weight <- getWeight s;;
           ret (fee + weight * double_of_int (CartItem.quantity item) * 10)%float
       | None => ret fee
       end)
    0%float.

Definition getShippableItems : M (list (ptr * Z)) :=
  items <- gets cart;;
  for_fold items
    (fun result item =>
       shippable <- dynamic_pointer_cast_Shippable (CartItem.product item);;
       match shippable with
       | Some s => ret (result ++ [(s, CartItem.quantity item)])
       | None => ret result
       end)
    [].

(** ** class Customer *)

Definition getBalance : M double := gets (fun w => Customer.balance (customer w)).

Definition deductBalance (amount : double) : M unit :=
  balance <- gets (fun w => Customer.balance (customer w));;
  if (balance <? amount)%float then throw "Insufficient balance."
  else modify (fun w =>
         set_customer (Customer.mk (Customer.name (customer w)) (balance - amount)%float) w).

(** ** cout *)

Inductive insertion : Type :=
| str (s : string)
| int (z : Z)
| dbl (d : double)
| fixed
| setprecision (n : nat).

Definition put (os : ostream) (i : insertion) : ostream :=
  let append s := mk_ostream (written os +:+ s) (floatfield_fixed os) (precision os) in
  match i with
  | str s => append s
  | int z => append (Fmt.of_int z)
  | dbl d =>
      append (if floatfield_fixed os then Fmt.fixed (precision os) d
              else Fmt.general (precision os) d)
  | fixed => mk_ostream (written os) true (precision os)
  | setprecision n => mk_ostream (written os) (floatfield_fixed os) n
  end.

(** [cout << i1 << i2 << ...] *)
Definition print (l : list insertion) : M unit :=
  modify (fun w => set_cout (fold_left put l (cout w)) w).

(** ** class ShippingService *)

Definition ship (items : list (ptr * Z)) : M unit :=
  print [str (nl +:+ "** Shipment notice **" +:+ nl)];;
  totalWeight <-
    for_fold items
      (fun totalWeight pair =>
         let item := fst pair in
         let qty := snd pair in
         w <- getWeight item;;
         let weight := (w * double_of_int qty)%float in
         let totalWeight := (totalWeight + weight)%float in
         n <- Shippable_getName item;;
         print [int qty; str "x "; str n; str tab;
                fixed; setprecision 0; dbl (weight * 1000)%float; str ("g" +:+ nl)];;
         ret totalWeight)
      0%float;;
  print [str "Total package weight "; fixed; setprecision 1;
         dbl totalWeight; str ("kg" +:+ nl)].

(** ** class CheckoutService *)

(** The body of the validation loop of [checkout]. *)
Definition validate (item : CartItem.t) : M unit :=
  expired <- isExpired (CartItem.product item);;
  (if expired
   then n <- getName (CartItem.product item);; throw (n +:+ " is expired.")
   else ret tt);;
  stock <- getQuantity (CartItem.product item);;
  if stock <? CartItem.quantity item
  then n <- getName (CartItem.product item);; throw (n +:+ " is out of stock.")
  else ret tt.

(** The body of the loop that prints the lines of the receipt. *)
Definition receipt_line (item : CartItem.t) : M unit :=
  n <- getName (CartItem.product item);;
  t <- getTotalPrice item;;
  print [int (CartItem.quantity item); str "x "; str n; str tab; dbl t; str nl].

Definition checkout : M unit :=
  empty <- isEmpty;;
  (if empty then throw "Cart is empty." else ret tt);;
  items <- getItems;;
  for_each items validate;;
  subtotal <- calculateSubtotal;;
  shippingFee <- calculateShippingFee;;
  let total := (subtotal + shippingFee)%float in
  balance <- getBalance;;
  (if (balance <? total)%float then throw "Insufficient customer balance." else ret tt);;
  items <- getItems;;
  for_each items (fun item => reduceQuantity (CartItem.product item) (CartItem.quantity item));;
  deductBalance total;;
  shippableItems <- getShippableItems;;
  (match shippableItems with
   | [] => ret tt
   | _ :: _ => ship shippableItems
   end);;
  print [str (nl +:+ "** Checkout receipt **" +:+ nl)];;
  items <- getItems;;
  for_each items receipt_line;;
  print [str ("----------------------" +:+ nl)];;
  print [str ("Subtotal" +:+ tab); dbl subtotal; str nl];;
  print [str ("Shipping" +:+ tab); dbl shippingFee; str nl];;
  print [str ("Amount" +:+ tab); dbl total; str nl].

(** The commit and the two notices of [checkout] (its lines 188 to 205),
    for the prices computed before them; [checkout_unfold] shows that
    [checkout] runs them after its checks. *)
Definition commit_and_report (subtotal shippingFee : double) : M unit :=
  let total := (subtotal + shippingFee)%float in
  items <- getItems;;
  for_each items (fun item => reduceQuantity (CartItem.product item) (CartItem.quantity item));;
  deductBalance total;;
  shippableItems <- getShippableItems;;
  (match shippableItems with
   | [] => ret tt
   | _ :: _ => ship shippableItems
   end);;
  print [str (nl +:+ "** Checkout receipt **" +:+ nl)];;
  items <- getItems;;
  for_each items receipt_line;;
  print [str ("----------------------" +:+ nl)];;
  print [str ("Subtotal" +:+ tab); dbl subtotal; str nl];;
  print [str ("Shipping" +:+ tab); dbl shippingFee; str nl];;
  print [str ("Amount" +:+ tab); dbl total; str nl].

(** ** The scenarios of main

    The catalog of [main], its customer with a balance to choose, an empty
    cart, [cout] as the program finds it, and a clock that stands still. *)

Definition cheese : Product.t := Product.mk "Cheese" 100 10 (ShippableProduct 0.2).
Definition biscuits : Product.t := Product.mk "Biscuits" 150 5 (ShippableProduct 0.7).
Definition tv : Product.t := Product.mk "TV" 1000 3 (ShippableProduct 10).
Definition scratchCard : Product.t := Product.mk "Scratch Card" 50 100 DigitalProduct.

Definition catalog : gmap ptr Product.t :=
  <[1%positive := cheese]> (<[2%positive := biscuits]> (<[3%positive := tv]>
    (<[4%positive := scratchCard]> ∅))).

Definition default_cout : ostream := mk_ostream "" false 6.

Definition main_world (balance : double) : World :=
  {| heap := catalog; cart := []; customer := Customer.mk "Kerolos" balance;
     cout := default_cout; clock := fun _ => 1751500000; ticks := 0 |}.

(** The try blocks of the two use cases. *)
Definition use_case_1 : M unit :=
  addToCart 1 2;; addToCart 2 1;; addToCart 4 1;; checkout.
Definition use_case_2 : M unit :=
  addToCart 1 2;; addToCart 2 1;; addToCart 4 1;; addToCart 3 1;; checkout.

(** The first use case of [main] once its cart is filled (scenario S1). *)
Definition use_case_1_world : World :=
  set_cart [CartItem.mk 1 2; CartItem.mk 2 1; CartItem.mk 4 1] (main_world 2000).

(** The second use case of [main] once its cart is filled. *)
Definition use_case_2_world : World :=
  set_cart [CartItem.mk 1 2; CartItem.mk 2 1; CartItem.mk 4 1; CartItem.mk 3 1]
    (main_world 1000).

(** ** Further carts *)

(** Scenario S6: three scratch cards and nothing else. *)
Definition digital_world : World :=
  set_cart [CartItem.mk 4 3] (main_world 2000).

(** Two lines for the cheese: three units, then two more. *)
Definition two_lines_world : World :=
  set_cart [CartItem.mk 1 3; CartItem.mk 1 2] (main_world 2000).

(** Two lines of three biscuits each, out of a stock of five: each line
    passes [addToCart] and the validation of [checkout], which look at one
    line at a time. *)
Definition oversold : M unit :=
  addToCart 2 3;; addToCart 2 3;; checkout.

(** A cart whose second line asks for more biscuits than are left. *)
Definition out_of_stock_world : World :=
  set_cart [CartItem.mk 1 2; CartItem.mk 2 6] (main_world 2000).

(** Milk that expires tomorrow, then a cheese that expired yesterday and
    of which the cart asks more than the stock. *)
Definition expired_world : World :=
  {| heap := {[ 1%positive := Product.mk "Milk" 30 4 (ExpirableProduct 1751586400);
                2%positive := Product.mk "Cheese" 100 1 (ExpirableProduct 1751413600) ]};
     cart := [CartItem.mk 1 1; CartItem.mk 2 3];
     customer := Customer.mk "Kerolos" 2000;
     cout := default_cout; clock := fun _ => 1751500000; ticks := 0 |}.

(** A cart holding two units of a cheese that expires, the only product. *)
Definition perishable_cheese : Product.t :=
  Product.mk "Cheese" 100 10 (ExpirableProduct 1751586400).

Definition perishable_world : World :=
  {| heap := {[ 1%positive := perishable_cheese ]};
     cart := [CartItem.mk 1 2]; customer := Customer.mk "Kerolos" 2000;
     cout := default_cout; clock := fun _ => 1751500000; ticks := 0 |}.

(** ** Vocabulary of the statements *)

(** [m] never throws. *)
Definition no_throw {A} (m : M A) : Prop :=
  forall w what, fst (m w) <> Throw what.

(** [m] leaves the component [proj] of the world as it is. *)
Definition keeps {X A} (proj : World -> X) (m : M A) : Prop :=
  forall w, proj (snd (m w)) = proj w.

(** [m] changes nothing at all, and its outcome only depends on the
    products and the cart. *)
Definition reads_store {A} (m : M A) : Prop :=
  forall w, snd (m w) = w /\
            forall w', heap w' = heap w -> cart w' = cart w -> fst (m w') = fst (m w).

(** The units of the product at [p] that the items order, all lines for
    [p] together. *)
Fixpoint ordered (p : ptr) (items : list CartItem.t) : Z :=
  match items with
  | [] => 0
  | item :: rest =>
      (if Pos.eqb (CartItem.product item) p then CartItem.quantity item else 0)
      + ordered p rest
  end.

(** What [receipt_line] inserts into [cout] for an item. *)
Definition receipt_insertions (h : gmap ptr Product.t) (item : CartItem.t)
  : list insertion :=
  match h !! CartItem.product item with
  | Some o =>
      [int (CartItem.quantity item); str "x "; str (Product.name o); str tab;
       dbl (Product.price o * double_of_int (CartItem.quantity item))%float; str nl]
  | None => []
  end.

(** The sum of a list of doubles, added from left to right onto 0.0. *)
Definition fsum (l : list double) : double := fold_left PrimFloat.add l 0%float.

(** The item's product derives from [Shippable]: the cast of its pointer
    is not null. *)
Definition casts_to_Shippable (h : gmap ptr Product.t) (item : CartItem.t) : bool :=
  match h !! CartItem.product item with
  | Some o => Product.derives_Shippable o
  | None => false
  end.

(** The item's product answers [true] to [isShippable()]. *)
Definition says_isShippable (h : gmap ptr Product.t) (item : CartItem.t) : bool :=
  match h !! CartItem.product item with
  | Some o => Product.isShippable o
  | None => false
  end.

(** [getWeight() * quantity * 10.0] for an item whose product has a weight. *)
Definition shipping_charge (h : gmap ptr Product.t) (item : CartItem.t) : double :=
  match h !! CartItem.product item with
  | Some {| Product.class := ShippableProduct weight |} =>
      (weight * double_of_int (CartItem.quantity item) * 10)%float
  | _ => 0%float
  end.

(** The entry of the manifest for an item. *)
Definition manifest_entry (item : CartItem.t) : ptr * Z :=
  (CartItem.product item, CartItem.quantity item).

(** The shipping fee as the spec words it: over the items whose product
    answers [isShippable()], a perishable product weighing
    [perishable_kg]. *)
Definition claimed_shippingFee (perishable_kg : Product.t -> double)
    (h : gmap ptr Product.t) (items : list CartItem.t) : double :=
  fsum (map (fun item =>
               match h !! CartItem.product item with
               | Some o =>
                   ((match Product.class o with
                     | ShippableProduct weight => weight
                     | _ => perishable_kg o
                     end) * double_of_int (CartItem.quantity item) * 10)%float
               | None => 0%float
               end)
            (List.filter (says_isShippable h) items)).

(** The manifest as the spec words it. *)
Definition claimed_manifest (h : gmap ptr Product.t) (items : list CartItem.t)
  : list (ptr * Z) :=
  map manifest_entry (List.filter (says_isShippable h) items).

(** What [checkout] inserts into [cout] for the receipt. *)
Definition receipt (h : gmap ptr Product.t) (items : list CartItem.t)
    (subtotal shippingFee : double) : list insertion :=
  [str (nl +:+ "** Checkout receipt **" +:+ nl)]
  ++ flat_map (receipt_insertions h) items
  ++ [str ("----------------------" +:+ nl);
      str ("Subtotal" +:+ tab); dbl subtotal; str nl;
      str ("Shipping" +:+ tab); dbl shippingFee; str nl;
      str ("Amount" +:+ tab); dbl (subtotal + shippingFee)%float; str nl].

(** ** Vocabulary of the further statements *)

(** The item's pointer is not null. *)
Definition has_product (h : gmap ptr Product.t) (item : CartItem.t) : bool :=
  match h !! CartItem.product item with
  | Some _ => true
  | None => false
  end.

(** [getPrice() * quantity] for an item whose product exists. *)
Definition line_total (h : gmap ptr Product.t) (item : CartItem.t) : double :=
  match h !! CartItem.product item with
  | Some o => (Product.price o * double_of_int (CartItem.quantity item))%float
  | None => 0%float
  end.

(** The item passes the two tests of the validation loop when the clock
    reads [now]. *)
Definition item_ok (now : time_t) (h : gmap ptr Product.t) (item : CartItem.t) : bool :=
  match h !! CartItem.product item with
  | Some o =>
      negb (Product.isExpired_at now o)
      && (CartItem.quantity item <=? Product.quantity o)
  | None => false
  end.

(** The entry of a manifest refers to a [ShippableProduct]. *)
Definition entry_ok (h : gmap ptr Product.t) (entry : ptr * Z) : bool :=
  match h !! fst entry with
  | Some o => Product.derives_Shippable o
  | None => false
  end.

(** [getWeight() * qty] for an entry of a manifest. *)
Definition entry_weight (h : gmap ptr Product.t) (entry : ptr * Z) : double :=
  match h !! fst entry with
  | Some {| Product.class := ShippableProduct weight |} =>
      (weight * double_of_int (snd entry))%float
  | _ => 0%float
  end.

(** What [ship] inserts into [cout] for an entry of the manifest. *)
Definition entry_insertions (h : gmap ptr Product.t) (entry : ptr * Z)
  : list insertion :=
  match h !! fst entry with
  | Some o =>
      [int (snd entry); str "x "; str (Product.name o); str tab;
       fixed; setprecision 0; dbl (entry_weight h entry * 1000)%float;
       str ("g" +:+ nl)]
  | None => []
  end.

(** What [ship] inserts into [cout] for a manifest. *)
Definition notice (h : gmap ptr Product.t) (manifest : list (ptr * Z))
  : list insertion :=
  [str (nl +:+ "** Shipment notice **" +:+ nl)]
  ++ flat_map (entry_insertions h) manifest
  ++ [str "Total package weight "; fixed; setprecision 1;
      dbl (fsum (map (entry_weight h) manifest)); str ("kg" +:+ nl)].

(** The manifest that [getShippableItems] returns. *)
Definition manifest_of (h : gmap ptr Product.t) (items : list CartItem.t)
  : list (ptr * Z) :=
  map manifest_entry (List.filter (casts_to_Shippable h) items).

(** What [checkout] inserts into [cout] before the receipt: the notice of
    the manifest of the cart, or nothing when that manifest is empty. *)
Definition shipment (h : gmap ptr Product.t) (items : list CartItem.t)
  : list insertion :=
  match manifest_of h items with
  | [] => []
  | manifest => notice h manifest
  end.

(** A run of calls [cart.addToCart(p, q)], one after the other, as in the
    try blocks of [main]. *)
Definition addAll (requests : list (ptr * Z)) : M unit :=
  for_each requests (fun r => addToCart (fst r) (snd r)).

(** The item that a request adds. *)
Definition requested (r : ptr * Z) : CartItem.t := CartItem.mk (fst r) (snd r).

(** [w'] differs from [w] in stocks at most, and no stock that was not
    negative has become negative: the cart, the customer's name, and the
    products with their names, prices and classes are those of [w]. *)
Definition stocks_only (w w' : World) : Prop :=
  cart w' = cart w /\
  Customer.name (customer w') = Customer.name (customer w) /\
  forall p,
    match heap w !! p with
    | Some o =>
        exists q, heap w' !! p = Some (Product.set_quantity q o) /\
                  (0 <= Product.quantity o -> 0 <= q)
    | None => heap w' !! p = None
    end.

(** [m] changes stocks only, however it ends. *)
Definition changes_stocks_only {A} (m : M A) : Prop :=
  forall w, stocks_only w (snd (m w)).

(** [main]: its exit code, with the text written to [cout] and to [cerr].
    It reads the clock once (for [tomorrow], which it does not use), makes
    the four products and the customer, and runs the second use case in a
    try block whose handler prints the message of the exception. *)
Definition main (clock : nat -> time_t) : outcome Z * string * string :=
  let w0 := {| heap := catalog; cart := []; customer := Customer.mk "Kerolos" 1000;
               cout := default_cout; clock := clock; ticks := 1 |} in
  match use_case_2 w0 with
  | (Return _, w) => (Return 0, written (cout w), EmptyString)
  | (Throw what, w) => (Return 0, written (cout w), "Error: " +:+ what +:+ nl)
  | (Undefined, w) => (Undefined, written (cout w), EmptyString)
  end.

(** * Properties *)

(** ** Formatting: sample outputs of the C library *)

Example general_411 : Fmt.general 6 411 = "411". Proof. vm_compute. reflexivity. Qed.
Example general_tenth : Fmt.general 6 0x1.999999999999ap-4 = "0.1". Proof. vm_compute. reflexivity. Qed.
Example general_million : Fmt.general 6 1000000 = "1e+06". Proof. vm_compute. reflexivity. Qed.
Example general_1234567 : Fmt.general 6 1234567 = "1.23457e+06". Proof. vm_compute. reflexivity. Qed.
Example general_small : Fmt.general 6 0x1.4f8b588e368f1p-17 = "1e-05". Proof. vm_compute. reflexivity. Qed.
Example general_tie : Fmt.general 6 999999.5 = "1e+06". Proof. vm_compute. reflexivity. Qed.
Example general_neg : Fmt.general 6 (-2.5) = "-2.5". Proof. vm_compute. reflexivity. Qed.
Example fixed_half : Fmt.fixed 0 2.5 = "2". Proof. vm_compute. reflexivity. Qed.
Example fixed_three_halves : Fmt.fixed 0 1.5 = "2". Proof. vm_compute. reflexivity. Qed.
Example fixed_one : Fmt.fixed 1 0x1.199999999999ap+0 = "1.1". Proof. vm_compute. reflexivity. Qed.
Example fixed_400 : Fmt.fixed 0 0x1.9000000000001p+8 = "400". Proof. vm_compute. reflexivity. Qed.

(** ** The two use cases of main *)

(** The first use case prints the shipment notice, then the receipt; the
    notice leaves [cout] at [fixed] with precision 1, which shows in the
    amounts of the receipt. *)
Example use_case_1_run :
  fst (use_case_1 (main_world 2000)) = Return tt /\
  written (cout (snd (use_case_1 (main_world 2000)))) =
    nl +:+ "** Shipment notice **" +:+ nl +:+
    "2x Cheese" +:+ tab +:+ "400g" +:+ nl +:+
    "1x Biscuits" +:+ tab +:+ "700g" +:+ nl +:+
    "Total package weight 1.1kg" +:+ nl +:+
    nl +:+ "** Checkout receipt **" +:+ nl +:+
    "2x Cheese" +:+ tab +:+ "200.0" +:+ nl +:+
    "1x Biscuits" +:+ tab +:+ "150.0" +:+ nl +:+
    "1x Scratch Card" +:+ tab +:+ "50.0" +:+ nl +:+
    "----------------------" +:+ nl +:+
    "Subtotal" +:+ tab +:+ "400.0" +:+ nl +:+
    "Shipping" +:+ tab +:+ "11.0" +:+ nl +:+
    "Amount" +:+ tab +:+ "411.0" +:+ nl /\
  Customer.balance (customer (snd (use_case_1 (main_world 2000)))) = 1589%float.
Proof. vm_compute. repeat split. Qed.

(** The second use case, the one [main] runs, is rejected and prints nothing. *)
Example use_case_2_run :
  use_case_2 (main_world 1000) = (Throw "Insufficient customer balance.", use_case_2_world).
Proof. vm_compute. reflexivity. Qed.

(** ** Running computations *)

Lemma bind_Return {A B} (m : M A) (k : A -> M B) w a w' :
  m w = (Return a, w') -> (x <- m;; k x) w = k a w'.
Proof. unfold bind. intros ->. reflexivity. Qed.

Lemma bind_Return_inv {A B} (m : M A) (k : A -> M B) w b w2 :
  (x <- m;; k x) w = (Return b, w2) ->
  exists a w1, m w = (Return a, w1) /\ k a w1 = (Return b, w2).
Proof.
  unfold bind. destruct (m w) as [[a | what |] w1]; intros H.
  - exists a, w1. split; [reflexivity | exact H].
  - discriminate H.
  - discriminate H.
Qed.

Lemma deref_Some p o w : heap w !! p = Some o -> deref p w = (Return o, w).
Proof. unfold deref. intros ->. reflexivity. Qed.

Lemma deref_Return_inv p o w w' :
  deref p w = (Return o, w') -> heap w !! p = Some o /\ w' = w.
Proof.
  unfold deref. destruct (heap w !! p) as [o' |]; intros H; inversion H; auto.
Qed.

Lemma append_assoc (s1 s2 s3 : string) : (s1 +:+ s2) +:+ s3 = s1 +:+ (s2 +:+ s3).
Proof.
  induction s1 as [| c s1 IH]; [reflexivity |].
  change (String c ((s1 +:+ s2) +:+ s3) = String c (s1 +:+ (s2 +:+ s3))).
  rewrite IH. reflexivity.
Qed.

(** ** Product::reduceQuantity *)

(** C6, as the code has it: [reduceQuantity(amount)] throws
    [runtime_error("Not enough stock.")] when [amount > quantity] and leaves
    the world as it was; otherwise, the difference being an [int], it
    returns with the product's quantity decreased by exactly [amount] and
    nothing else changed.  The difference of an [int] stock and an amount
    between 0 and that stock is an [int]. *)
Theorem reduceQuantity_spec (w : World) (this : ptr) (o : Product.t) (amount : Z) :
  heap w !! this = Some o ->
  (Product.quantity o < amount ->
     reduceQuantity this amount w = (Throw "Not enough stock.", w)) /\
  (amount <= Product.quantity o ->
   in_int (Product.quantity o - amount) = true ->
     reduceQuantity this amount w =
       (Return tt,
        set_heap (<[this := Product.set_quantity (Product.quantity o - amount) o]> (heap w)) w)) /\
  (0 <= amount <= Product.quantity o ->
   in_int (Product.quantity o) = true ->
     in_int (Product.quantity o - amount) = true).
Proof.
  intros Hthis. unfold reduceQuantity.
  rewrite (bind_Return _ _ _ _ _ (deref_Some _ _ _ Hthis)).
  split; [| split].
  - intros Hlt. apply Z.ltb_lt in Hlt. rewrite Hlt. reflexivity.
  - intros Hle Hint. apply Z.ltb_ge in Hle. rewrite Hle, Hint. reflexivity.
  - unfold in_int, int_min, int_max. intros Hamount Hint.
    apply andb_true_iff in Hint as [Hlo Hhi].
    apply Z.leb_le in Hlo, Hhi.
    apply andb_true_iff. split; apply Z.leb_le; lia.
Qed.

Lemma reduceQuantity_spec_witness :
  reduceQuantity 2 6 (main_world 1000) = (Throw "Not enough stock.", main_world 1000) /\
  reduceQuantity 2 3 (main_world 1000) =
    (Return tt,
     set_heap (<[2%positive := Product.set_quantity (5 - 3) biscuits]> catalog)
       (main_world 1000)) /\
  in_int (5 - 3) = true.
Proof.
  split; [| split].
  - apply (reduceQuantity_spec (main_world 1000) 2 biscuits 6); [reflexivity | simpl; lia].
  - apply (reduceQuantity_spec (main_world 1000) 2 biscuits 3);
      [reflexivity | simpl; lia | reflexivity].
  - apply (reduceQuantity_spec (main_world 1000) 2 biscuits 3);
      [reflexivity | simpl; lia | reflexivity].
Defined.

(** C6, as the spec words it, fails: the message of the error that
    [reduceQuantity] throws is not "Insufficient stock.". *)
Lemma reduceQuantity_message_counterexample :
  ~ (forall w this o amount,
       heap w !! this = Some o -> Product.quantity o < amount ->
       reduceQuantity this amount w = (Throw "Insufficient stock.", w)).
Proof.
  intros H.
  specialize (H (main_world 1000) 2%positive biscuits 6 eq_refl ltac:(simpl; lia)).
  vm_compute in H. discriminate H.
Qed.

(** ** Cart::addToCart *)

(** C7: [addToCart(product, quantity)] throws
    [runtime_error("Insufficient stock.")] when [quantity] exceeds the
    product's stock at that moment and then leaves the cart (and the rest of
    the world) unchanged; otherwise it appends exactly one item
    [(product, quantity)] at the end of the cart, whatever the cart already
    holds for that product.  It never changes a product. *)
Theorem addToCart_spec (w : World) (product : ptr) (o : Product.t) (quantity : Z) :
  heap w !! product = Some o ->
  (Product.quantity o < quantity ->
     addToCart product quantity w = (Throw "Insufficient stock.", w)) /\
  (quantity <= Product.quantity o ->
     addToCart product quantity w =
       (Return tt, set_cart (cart w ++ [CartItem.mk product quantity]) w)) /\
  heap (snd (addToCart product quantity w)) = heap w.
Proof.
  intros Hp. unfold addToCart, getQuantity.
  rewrite (bind_Return _ _ _ _ _ (bind_Return _ _ _ _ _ (deref_Some _ _ _ Hp))).
  unfold ret. repeat split.
  - intros Hlt. apply Z.ltb_lt in Hlt. rewrite Hlt. reflexivity.
  - intros Hle. apply Z.ltb_ge in Hle. rewrite Hle. reflexivity.
  - destruct (Product.quantity o <? quantity); reflexivity.
Qed.

(** Scenario S5, and a second line for a product already in the cart. *)
Lemma addToCart_spec_witness :
  addToCart 2 6 (main_world 1000) = (Throw "Insufficient stock.", main_world 1000) /\
  addToCart 1 3 (set_cart [CartItem.mk 1 2] (main_world 1000)) =
    (Return tt, set_cart [CartItem.mk 1 2; CartItem.mk 1 3] (main_world 1000)).
Proof.
  split.
  - apply (addToCart_spec (main_world 1000) 2 biscuits 6); [reflexivity | simpl; lia].
  - apply (addToCart_spec (set_cart [CartItem.mk 1 2] (main_world 1000)) 1 cheese 3);
      [reflexivity | simpl; lia].
Defined.

(** C8, as the code has it: when [addToCart(product, quantity)] returns, the
    product exists, [quantity] is at most its stock at that moment, and the
    cart has grown by the item [(product, quantity)] and by nothing else.
    No lower bound on [quantity] is checked. *)
Theorem addToCart_accepted (w w' : World) (product : ptr) (quantity : Z) :
  addToCart product quantity w = (Return tt, w') ->
  exists o, heap w !! product = Some o /\
            quantity <= Product.quantity o /\
            cart w' = cart w ++ [CartItem.mk product quantity] /\
            heap w' = heap w.
Proof.
  unfold addToCart, getQuantity. intros H.
  apply bind_Return_inv in H as (stock & w1 & Hq & H).
  apply bind_Return_inv in Hq as (o & w0 & Ho & Hq).
  apply deref_Return_inv in Ho as [Ho ->].
  unfold ret in Hq. inversion Hq; subst stock w1; clear Hq.
  exists o. split; [exact Ho |].
  destruct (Z.ltb_spec (Product.quantity o) quantity) as [Hlt | Hle].
  - discriminate H.
  - unfold modify in H. inversion H; subst w'. simpl. auto.
Qed.

Lemma addToCart_accepted_witness :
  exists o, heap (main_world 1000) !! 1%positive = Some o /\
            2 <= Product.quantity o /\
            cart (set_cart [CartItem.mk 1 2] (main_world 1000)) =
              cart (main_world 1000) ++ [CartItem.mk 1 2] /\
            heap (set_cart [CartItem.mk 1 2] (main_world 1000)) = heap (main_world 1000).
Proof.
  apply (addToCart_accepted (main_world 1000) _ 1 2). reflexivity.
Defined.

(** C8, as the spec words it, fails: [addToCart] accepts the quantity 0
    (and negative quantities), so an item of the cart need not have
    [quantity >= 1]. *)
Lemma addToCart_quantity_counterexample :
  ~ (forall w w' product quantity,
       addToCart product quantity w = (Return tt, w') ->
       forall item, In item (cart w') -> 1 <= CartItem.quantity item).
Proof.
  intros H.
  specialize (H (main_world 1000) (set_cart [CartItem.mk 1 0] (main_world 1000))
                1%positive 0 eq_refl (CartItem.mk 1 0) (or_introl eq_refl)).
  simpl in H. lia.
Qed.

(** ** Computations that cannot throw *)

Create HintDb no_throw.

Lemma no_throw_ret {A} (a : A) : no_throw (ret a).
Proof. intros w what. discriminate. Qed.

Lemma no_throw_undefined {A} : no_throw (@undefined A).
Proof. intros w what. discriminate. Qed.

Lemma no_throw_gets {A} (f : World -> A) : no_throw (gets f).
Proof. intros w what. discriminate. Qed.

Lemma no_throw_modify f : no_throw (modify f).
Proof. intros w what. discriminate. Qed.

Lemma no_throw_print l : no_throw (print l).
Proof. apply no_throw_modify. Qed.

Lemma no_throw_deref p : no_throw (deref p).
Proof. intros w what. unfold deref. destruct (heap w !! p); discriminate. Qed.

Lemma no_throw_bind {A B} (m : M A) (k : A -> M B) :
  no_throw m -> (forall a, no_throw (k a)) -> no_throw (x <- m;; k x).
Proof.
  intros Hm Hk w what. unfold bind.
  specialize (Hm w). destruct (m w) as [[a | what' |] w1]; simpl in *.
  - apply Hk.
  - destruct (Hm what'). reflexivity.
  - discriminate.
Qed.

Lemma no_throw_for_fold {A S} (l : list A) (body : S -> A -> M S) :
  (forall s x, no_throw (body s x)) -> forall s, no_throw (for_fold l body s).
Proof.
  intros Hbody. induction l as [| x l IH]; intros s; simpl.
  - apply no_throw_ret.
  - apply no_throw_bind; [apply Hbody | exact IH].
Qed.

#[local] Hint Resolve no_throw_ret no_throw_undefined no_throw_gets no_throw_modify
  no_throw_print no_throw_deref : no_throw.

Lemma no_throw_getWeight p : no_throw (getWeight p).
Proof.
  unfold getWeight. apply no_throw_bind; [auto with no_throw |].
  intros o. destruct (Product.class o); auto with no_throw.
Qed.

Lemma no_throw_Shippable_getName p : no_throw (Shippable_getName p).
Proof.
  unfold Shippable_getName. apply no_throw_bind; [auto with no_throw |].
  intros o. destruct (Product.class o); auto with no_throw.
Qed.

#[local] Hint Resolve no_throw_getWeight no_throw_Shippable_getName : no_throw.

(** ** ShippingService::ship *)

Lemma no_throw_ship items : no_throw (ship items).
Proof.
  unfold ship.
  apply no_throw_bind; [auto with no_throw | intros _].
  apply no_throw_bind; [| auto with no_throw].
  apply no_throw_for_fold. intros s x.
  apply no_throw_bind; [auto with no_throw | intros wt].
  apply no_throw_bind; [auto with no_throw | intros n].
  apply no_throw_bind; auto with no_throw.
Qed.

(** C10: [ship] checks nothing.  On the empty manifest it returns after
    writing the header line and the line "Total package weight 0.0kg" and
    nothing between them (whatever the format flags of [cout] were, it leaves
    them at [fixed] with precision 1); and no manifest makes it throw. *)
Theorem ship_empty_manifest :
  (forall w,
     ship [] w =
       (Return tt,
        set_cout
          (mk_ostream
             (written (cout w) +:+
              (nl +:+ "** Shipment notice **" +:+ nl +:+
               "Total package weight 0.0kg" +:+ nl))
             true 1) w)) /\
  (forall items w what, fst (ship items w) <> Throw what).
Proof.
  split.
  - intros w. unfold ship, bind, print, modify, ret, set_cout; simpl.
    rewrite !append_assoc.
    replace (Fmt.fixed 1 0) with "0.0"%string by (vm_compute; reflexivity).
    reflexivity.
  - intros items. apply no_throw_ship.
Qed.

(** ** Loops whose body is a pure step *)

Lemma for_fold_pure {A S} (body : S -> A -> M S) (step : S -> A -> S) (w : World) :
  (forall s x, body s x w = (Return (step s x), w)) ->
  forall l s, for_fold l body s w = (Return (fold_left step l s), w).
Proof.
  intros Hbody. induction l as [| x l IH]; intros s; simpl.
  - reflexivity.
  - rewrite (bind_Return _ _ _ _ _ (Hbody s x)). apply IH.
Qed.

Lemma fold_left_filter_map {A S} (keep : A -> bool) (f : A -> S) (op : S -> S -> S) l :
  forall s,
    fold_left (fun s x => if keep x then op s (f x) else s) l s =
    fold_left op (map f (List.filter keep l)) s.
Proof.
  induction l as [| x l IH]; intros s; simpl; [reflexivity |].
  destruct (keep x); simpl; apply IH.
Qed.

Lemma fold_left_snoc_filter_map {A B} (keep : A -> bool) (f : A -> B) l :
  forall acc,
    fold_left (fun acc x => if keep x then acc ++ [f x] else acc) l acc =
    acc ++ map f (List.filter keep l).
Proof.
  induction l as [| x l IH]; intros acc; simpl.
  - symmetry. apply app_nil_r.
  - rewrite IH. destruct (keep x); simpl; [| reflexivity].
    rewrite <- app_assoc. reflexivity.
Qed.

(** ** Cart::calculateShippingFee and Cart::getShippableItems *)

(** The two const methods that cannot fail, as runs. *)
Lemma calculateShippingFee_run (w : World) :
  calculateShippingFee w =
    (Return (fsum (map (shipping_charge (heap w))
                       (List.filter (casts_to_Shippable (heap w)) (cart w)))), w).
Proof.
  unfold calculateShippingFee, fsum.
  rewrite (bind_Return (gets cart) _ w (cart w) w eq_refl).
  rewrite <- fold_left_filter_map.
  apply for_fold_pure. intros fee item.
  unfold dynamic_pointer_cast_Shippable, casts_to_Shippable, shipping_charge,
    getWeight, deref, Product.derives_Shippable, bind.
  destruct (heap w !! CartItem.product item) as [[n p q []] |] eqn:Hp;
    simpl; rewrite ?Hp; reflexivity.
Qed.

Lemma getShippableItems_run (w : World) :
  getShippableItems w =
    (Return (map manifest_entry (List.filter (casts_to_Shippable (heap w)) (cart w))), w).
Proof.
  unfold getShippableItems.
  rewrite (bind_Return (gets cart) _ w (cart w) w eq_refl).
  change (map manifest_entry (List.filter (casts_to_Shippable (heap w)) (cart w)))
    with ([] ++ map manifest_entry (List.filter (casts_to_Shippable (heap w)) (cart w))).
  rewrite <- fold_left_snoc_filter_map.
  apply for_fold_pure. intros result item.
  unfold bind, dynamic_pointer_cast_Shippable, casts_to_Shippable, manifest_entry.
  destruct (heap w !! CartItem.product item) as [o |]; [| reflexivity].
  destruct (Product.derives_Shippable o); reflexivity.
Qed.

(** C2, as the code has it: the shipping fee is the sum, from left to right
    in cart order, of [getWeight() * quantity * 10.0] over exactly the items
    whose product derives from [Shippable], that is over the
    [ShippableProduct]s; every other item, the perishable ones included,
    adds nothing: the fee is what it would be without that item.  The call
    changes nothing. *)
Theorem calculateShippingFee_spec (w : World) :
  calculateShippingFee w =
    (Return (fsum (map (shipping_charge (heap w))
                       (List.filter (casts_to_Shippable (heap w)) (cart w)))), w) /\
  (forall pre item post,
     cart w = pre ++ item :: post ->
     casts_to_Shippable (heap w) item = false ->
     fst (calculateShippingFee w) = fst (calculateShippingFee (set_cart (pre ++ post) w))).
Proof.
  split; [apply calculateShippingFee_run |].
  intros pre item post Hcart Hcast.
  rewrite !calculateShippingFee_run. simpl. rewrite Hcart.
  rewrite !List.filter_app. simpl. rewrite Hcast. reflexivity.
Qed.

(** Scenario S1: the scratch card of the cart adds nothing to the fee. *)
Lemma calculateShippingFee_spec_witness :
  fst (calculateShippingFee use_case_1_world) =
  fst (calculateShippingFee (set_cart [CartItem.mk 1 2; CartItem.mk 2 1] use_case_1_world)).
Proof.
  apply (proj2 (calculateShippingFee_spec use_case_1_world)
           [CartItem.mk 1 2; CartItem.mk 2 1] (CartItem.mk 4 1) []);
    reflexivity.
Defined.

(** C2, as the spec words it, fails: a perishable product answers [true]
    to [isShippable()], yet an item for it adds nothing to the fee, whatever
    positive weight it is taken to have (0.2 kg here). *)
Lemma shippingFee_perishable_counterexample :
  says_isShippable (heap perishable_world) (CartItem.mk 1 2) = true /\
  fst (calculateShippingFee perishable_world) <>
    Return (claimed_shippingFee (fun _ => 0.2%float)
              (heap perishable_world) (cart perishable_world)).
Proof.
  split; [reflexivity |].
  intros H.
  apply (f_equal (fun o => match o with Return x => PrimFloat.eqb x 0 | _ => false end)) in H.
  vm_compute in H. discriminate H.
Qed.

(** C4, as the code has it: the manifest lists, in cart order, one entry
    [(pointer, quantity)] for each item whose product derives from
    [Shippable] (a [ShippableProduct]): the entry of such an item stands
    between the entries of the items before it and those of the items after
    it, also when these are for the same product.  The items of other
    products, the perishable ones included, are left out.  The call changes
    nothing. *)
Theorem getShippableItems_spec (w : World) :
  getShippableItems w =
    (Return (map manifest_entry (List.filter (casts_to_Shippable (heap w)) (cart w))), w) /\
  (forall pre item post,
     cart w = pre ++ item :: post ->
     casts_to_Shippable (heap w) item = true ->
     exists before after,
       fst (getShippableItems (set_cart pre w)) = Return before /\
       fst (getShippableItems (set_cart post w)) = Return after /\
       fst (getShippableItems w) =
         Return (before ++ (CartItem.product item, CartItem.quantity item) :: after)).
Proof.
  split; [apply getShippableItems_run |].
  intros pre item post Hcart Hcast.
  rewrite !getShippableItems_run. simpl. rewrite Hcart.
  eexists. eexists. split; [reflexivity |]. split; [reflexivity |].
  rewrite List.filter_app. simpl. rewrite Hcast.
  rewrite map_app. reflexivity.
Qed.

(** Two lines for the cheese give two entries, in the order of the lines. *)
Lemma getShippableItems_spec_witness :
  exists before after,
    fst (getShippableItems (set_cart [CartItem.mk 1 3] two_lines_world)) = Return before /\
    fst (getShippableItems (set_cart [] two_lines_world)) = Return after /\
    fst (getShippableItems two_lines_world) = Return (before ++ (1%positive, 2) :: after).
Proof.
  apply (proj2 (getShippableItems_spec two_lines_world)
           [CartItem.mk 1 3] (CartItem.mk 1 2) []);
    reflexivity.
Defined.

(** C4, as the spec words it, fails: the item of a perishable product,
    which answers [true] to [isShippable()], is not in the manifest. *)
Lemma manifest_perishable_counterexample :
  fst (getShippableItems perishable_world) <>
    Return (claimed_manifest (heap perishable_world) (cart perishable_world)).
Proof. vm_compute. discriminate. Qed.

(** ** Frames: what a computation leaves alone *)

Create HintDb keeps.

Lemma keeps_ret {X A} (proj : World -> X) (a : A) : keeps proj (ret a).
Proof. intros w. reflexivity. Qed.

Lemma keeps_throw {X A} (proj : World -> X) what : keeps proj (@throw A what).
Proof. intros w. reflexivity. Qed.

Lemma keeps_undefined {X A} (proj : World -> X) : keeps proj (@undefined A).
Proof. intros w. reflexivity. Qed.

Lemma keeps_gets {X A} (proj : World -> X) (f : World -> A) : keeps proj (gets f).
Proof. intros w. reflexivity. Qed.

Lemma keeps_deref {X} (proj : World -> X) p : keeps proj (deref p).
Proof. intros w. unfold deref. destruct (heap w !! p); reflexivity. Qed.

Lemma keeps_cast {X} (proj : World -> X) p : keeps proj (dynamic_pointer_cast_Shippable p).
Proof. intros w. reflexivity. Qed.

Lemma keeps_modify {X} (proj : World -> X) f :
  (forall w, proj (f w) = proj w) -> keeps proj (modify f).
Proof. intros H w. apply H. Qed.

Lemma keeps_bind {X A B} (proj : World -> X) (m : M A) (k : A -> M B) :
  keeps proj m -> (forall a, keeps proj (k a)) -> keeps proj (x <- m;; k x).
Proof.
  intros Hm Hk w. unfold bind. specialize (Hm w).
  destruct (m w) as [[a | what |] w1]; simpl in *.
  - rewrite Hk. exact Hm.
  - exact Hm.
  - exact Hm.
Qed.

Lemma keeps_for_each {X A} (proj : World -> X) (l : list A) (body : A -> M unit) :
  (forall x, keeps proj (body x)) -> keeps proj (for_each l body).
Proof.
  intros Hbody. induction l as [| x l IH]; simpl.
  - apply keeps_ret.
  - apply keeps_bind; [apply Hbody | intros _; exact IH].
Qed.

Lemma keeps_for_fold {X A S} (proj : World -> X) (l : list A) (body : S -> A -> M S) :
  (forall s x, keeps proj (body s x)) -> forall s, keeps proj (for_fold l body s).
Proof.
  intros Hbody. induction l as [| x l IH]; intros s; simpl.
  - apply keeps_ret.
  - apply keeps_bind; [apply Hbody | exact IH].
Qed.

#[local] Hint Resolve keeps_ret keeps_throw keeps_undefined keeps_gets keeps_deref
  keeps_cast : keeps.

(** Stepping through a method: binds, loops, branches, then the primitives. *)
Ltac keeps_step :=
  first
    [ apply keeps_bind; [| intros ?]
    | apply keeps_for_each; intros ?
    | apply keeps_for_fold; intros ? ?
    | apply keeps_modify; intros ?; reflexivity
    | solve [auto with keeps]
    | match goal with
      | |- keeps _ (if ?b then _ else _) => destruct b
      | |- keeps _ (match ?o with _ => _ end) => destruct o
      end ].

Ltac keeps_tac := repeat keeps_step.

Lemma keeps_getName {X} (proj : World -> X) p : keeps proj (getName p).
Proof. unfold getName. keeps_tac. Qed.

Lemma keeps_getPrice {X} (proj : World -> X) p : keeps proj (getPrice p).
Proof. unfold getPrice. keeps_tac. Qed.

Lemma keeps_getQuantity {X} (proj : World -> X) p : keeps proj (getQuantity p).
Proof. unfold getQuantity. keeps_tac. Qed.

Lemma keeps_getWeight {X} (proj : World -> X) p : keeps proj (getWeight p).
Proof. unfold getWeight. keeps_tac. Qed.

Lemma keeps_Shippable_getName {X} (proj : World -> X) p : keeps proj (Shippable_getName p).
Proof. unfold Shippable_getName. keeps_tac. Qed.

#[local] Hint Resolve keeps_getName keeps_getPrice keeps_getQuantity keeps_getWeight
  keeps_Shippable_getName : keeps.

Lemma keeps_getTotalPrice {X} (proj : World -> X) item : keeps proj (getTotalPrice item).
Proof. unfold getTotalPrice. keeps_tac. Qed.

#[local] Hint Resolve keeps_getTotalPrice : keeps.

Lemma keeps_calculateSubtotal {X} (proj : World -> X) : keeps proj calculateSubtotal.
Proof. unfold calculateSubtotal. keeps_tac. Qed.

Lemma keeps_calculateShippingFee {X} (proj : World -> X) : keeps proj calculateShippingFee.
Proof. unfold calculateShippingFee. keeps_tac. Qed.

Lemma keeps_getShippableItems {X} (proj : World -> X) : keeps proj getShippableItems.
Proof. unfold getShippableItems. keeps_tac. Qed.

#[local] Hint Resolve keeps_calculateSubtotal keeps_calculateShippingFee
  keeps_getShippableItems : keeps.

(** Reading the clock only advances the count of its readings. *)
Lemma keeps_time {X} (proj : World -> X) :
  (forall n w, proj (set_ticks n w) = proj w) -> keeps proj time.
Proof. intros Hproj w. apply Hproj. Qed.

Lemma keeps_isExpired {X} (proj : World -> X) p :
  (forall n w, proj (set_ticks n w) = proj w) -> keeps proj (isExpired p).
Proof.
  intros Hproj. unfold isExpired.
  repeat first [apply keeps_time; exact Hproj | keeps_step].
Qed.

Lemma keeps_validate {X} (proj : World -> X) item :
  (forall n w, proj (set_ticks n w) = proj w) -> keeps proj (validate item).
Proof.
  intros Hproj. unfold validate.
  repeat first [apply keeps_isExpired; exact Hproj | keeps_step].
Qed.

(** Printing only changes [cout]. *)
Lemma keeps_print {X} (proj : World -> X) l :
  (forall o w, proj (set_cout o w) = proj w) -> keeps proj (print l).
Proof. intros Hproj w. apply Hproj. Qed.

Lemma keeps_ship {X} (proj : World -> X) items :
  (forall o w, proj (set_cout o w) = proj w) -> keeps proj (ship items).
Proof.
  intros Hproj. unfold ship.
  repeat first [apply keeps_print; exact Hproj | keeps_step].
Qed.

(** Decrementing a stock only changes the heap. *)
Lemma keeps_reduceQuantity {X} (proj : World -> X) p amount :
  (forall h w, proj (set_heap h w) = proj w) -> keeps proj (reduceQuantity p amount).
Proof.
  intros Hproj. unfold reduceQuantity, store. keeps_tac.
  intros w. apply Hproj.
Qed.

(** ** Readers of the products and the cart *)

Lemma reads_store_ret {A} (a : A) : reads_store (ret a).
Proof. intros w. split; [reflexivity | intros; reflexivity]. Qed.

Lemma reads_store_cart : reads_store (gets cart).
Proof. intros w. split; [reflexivity |]. intros w' _ Hc. simpl. now rewrite Hc. Qed.

Lemma reads_store_deref p : reads_store (deref p).
Proof.
  intros w. unfold deref. split.
  - destruct (heap w !! p); reflexivity.
  - intros w' Hh _. rewrite Hh. destruct (heap w !! p); reflexivity.
Qed.

Lemma reads_store_bind {A B} (m : M A) (k : A -> M B) :
  reads_store m -> (forall a, reads_store (k a)) -> reads_store (x <- m;; k x).
Proof.
  intros Hm Hk w. destruct (Hm w) as [Hs Hf]. split.
  - unfold bind. destruct (m w) as [[a | what |] w1]; simpl in Hs; subst w1;
      [apply Hk | reflexivity | reflexivity].
  - intros w' Hh Hc. specialize (Hf w' Hh Hc).
    destruct (Hm w') as [Hs' _]. unfold bind.
    destruct (m w) as [[a | what |] w1], (m w') as [[a' | what' |] w1'];
      simpl in *; subst w1 w1'; try discriminate Hf;
      [inversion Hf; subst a'; now apply Hk | inversion Hf; reflexivity | reflexivity].
Qed.

Lemma reads_store_for_fold {A S} (l : list A) (body : S -> A -> M S) :
  (forall s x, reads_store (body s x)) -> forall s, reads_store (for_fold l body s).
Proof.
  intros Hbody. induction l as [| x l IH]; intros s; simpl.
  - apply reads_store_ret.
  - apply reads_store_bind; [apply Hbody | exact IH].
Qed.

Lemma reads_store_calculateSubtotal : reads_store calculateSubtotal.
Proof.
  unfold calculateSubtotal.
  apply reads_store_bind; [apply reads_store_cart | intros items].
  apply reads_store_for_fold. intros sum item. unfold getTotalPrice, getPrice.
  repeat first [apply reads_store_bind; [| intros ?]
               | apply reads_store_deref | apply reads_store_ret].
Qed.

(** ** The validation loop of checkout *)

Lemma for_each_app {A} (l1 l2 : list A) (body : A -> M unit) w :
  for_each (l1 ++ l2) body w = (for_each l1 body;; for_each l2 body) w.
Proof.
  revert w. induction l1 as [| x l1 IH]; intros w; simpl.
  - reflexivity.
  - unfold bind. destruct (body x w) as [[[] | what |] w1]; [| reflexivity ..].
    rewrite IH. reflexivity.
Qed.

(** The validation loop leaves everything but the count of clock readings. *)
Lemma validation_frame items w :
  let w1 := snd (for_each items validate w) in
  heap w1 = heap w /\ cart w1 = cart w /\ customer w1 = customer w /\
  cout w1 = cout w /\ clock w1 = clock w.
Proof.
  repeat split;
    apply (keeps_for_each _ items validate); intros item;
    apply keeps_validate; reflexivity.
Qed.

(** How [validate] ends on an item whose product exists. *)
Lemma validate_run (w : World) (item : CartItem.t) (o : Product.t) :
  heap w !! CartItem.product item = Some o ->
  fst (validate item w) =
    if Product.isExpired_at (clock w (ticks w)) o
    then Throw (Product.name o +:+ " is expired.")
    else if Product.quantity o <? CartItem.quantity item
         then Throw (Product.name o +:+ " is out of stock.")
         else Return tt.
Proof.
  intros Hp.
  unfold validate, isExpired, getQuantity, getName, time, deref, ret, throw, bind,
    Product.isExpired_at.
  rewrite Hp.
  destruct (Product.class o) as [expiryDate | weight |]; simpl; rewrite ?Hp.
  - destruct (expiryDate <? clock w (ticks w)); simpl; rewrite ?Hp; [reflexivity |].
    destruct (Product.quantity o <? CartItem.quantity item); simpl; rewrite ?Hp; reflexivity.
  - destruct (Product.quantity o <? CartItem.quantity item); simpl; rewrite ?Hp; reflexivity.
  - destruct (Product.quantity o <? CartItem.quantity item); simpl; rewrite ?Hp; reflexivity.
Qed.

(** Up to the validation loop, [checkout] on a cart that is not empty. *)
Lemma checkout_validation_Throw (w : World) what :
  cart w <> [] ->
  fst (for_each (cart w) validate w) = Throw what ->
  fst (checkout w) = Throw what.
Proof.
  intros Hne Hv. unfold checkout, isEmpty, getItems.
  unfold bind at 1. unfold bind at 1. unfold gets at 1. unfold ret at 1.
  destruct (cart w) as [| item rest] eqn:Hc; [congruence |].
  unfold bind at 1. unfold ret at 1.
  unfold bind at 1. unfold gets at 1. rewrite Hc.
  unfold bind at 1.
  destruct (for_each (item :: rest) validate w) as [[[] | what' |] w1];
    simpl in Hv; try discriminate Hv.
  inversion Hv. reflexivity.
Qed.

(** [checkout], check by check. *)
Lemma checkout_unfold (w : World) :
  checkout w =
    match cart w with
    | [] => (Throw "Cart is empty.", w)
    | _ :: _ =>
        match for_each (cart w) validate w with
        | (Return _, w1) =>
            match calculateSubtotal w1 with
            | (Return subtotal, w2) =>
                match calculateShippingFee w2 with
                | (Return shippingFee, w3) =>
                    if (Customer.balance (customer w3) <? subtotal + shippingFee)%float
                    then (Throw "Insufficient customer balance.", w3)
                    else commit_and_report subtotal shippingFee w3
                | (Throw what, w3) => (Throw what, w3)
                | (Undefined, w3) => (Undefined, w3)
                end
            | (Throw what, w2) => (Throw what, w2)
            | (Undefined, w2) => (Undefined, w2)
            end
        | (Throw what, w1) => (Throw what, w1)
        | (Undefined, w1) => (Undefined, w1)
        end
    end.
Proof.
  unfold checkout, commit_and_report, isEmpty, getItems, getBalance.
  unfold bind at 1. unfold bind at 1. unfold gets at 1. unfold ret at 1.
  destruct (cart w) as [| item rest] eqn:Hc; [reflexivity |].
  unfold bind at 1. unfold ret at 1.
  unfold bind at 1. unfold gets at 1. rewrite Hc.
  unfold bind at 1.
  destruct (for_each (item :: rest) validate w) as [[[] | what |] w1]; [| reflexivity ..].
  unfold bind at 1.
  destruct (calculateSubtotal w1) as [[subtotal | what |] w2]; [| reflexivity ..].
  unfold bind at 1.
  destruct (calculateShippingFee w2) as [[shippingFee | what |] w3]; [| reflexivity ..].
  unfold bind at 1. unfold gets at 1.
  unfold bind at 1.
  destruct (Customer.balance (customer w3) <? subtotal + shippingFee)%float; reflexivity.
Qed.

Lemma calculateSubtotal_at w w1 subtotal :
  heap w1 = heap w -> cart w1 = cart w ->
  fst (calculateSubtotal w) = Return subtotal ->
  calculateSubtotal w1 = (Return subtotal, w1).
Proof.
  intros Hh Hc Hs.
  destruct (reads_store_calculateSubtotal w) as [_ Hf].
  destruct (reads_store_calculateSubtotal w1) as [Hw1 _].
  specialize (Hf w1 Hh Hc). rewrite Hs in Hf.
  destruct (calculateSubtotal w1) as [o w2]; simpl in *. congruence.
Qed.

Lemma calculateShippingFee_at w w1 shippingFee :
  heap w1 = heap w -> cart w1 = cart w ->
  fst (calculateShippingFee w) = Return shippingFee ->
  calculateShippingFee w1 = (Return shippingFee, w1).
Proof.
  intros Hh Hc. rewrite !calculateShippingFee_run, Hh, Hc. simpl.
  intros H. inversion H. reflexivity.
Qed.

Lemma fst_bind_Throw {A B} (m : M A) (k : A -> M B) w what :
  fst (m w) = Throw what -> fst ((x <- m;; k x) w) = Throw what.
Proof.
  unfold bind. destruct (m w) as [[a | what' |] w1]; simpl; intros H;
    [discriminate H | inversion H; reflexivity | discriminate H].
Qed.

(** ** CheckoutService::checkout: the order of the checks *)

(** C5: [checkout] fails with the first check that is violated.  An empty
    cart gives "Cart is empty.".  Otherwise the items are validated in cart
    order: when the loop has passed the items before [item] (reaching the
    world [w1]), it throws "<name> is expired." if the product of [item] is
    expired at the clock reading taken then, whatever its stock, and
    "<name> is out of stock." if it is not expired and its quantity exceeds
    the stock.  When all items pass, it throws
    "Insufficient customer balance." if the balance is below
    subtotal + shipping fee. *)
Theorem checkout_checks_in_order (w : World) :
  (cart w = [] -> fst (checkout w) = Throw "Cart is empty.") /\
  (forall pre item post o w1,
     cart w = pre ++ item :: post ->
     for_each pre validate w = (Return tt, w1) ->
     heap w !! CartItem.product item = Some o ->
     (Product.isExpired_at (clock w1 (ticks w1)) o = true ->
        fst (checkout w) = Throw (Product.name o +:+ " is expired.")) /\
     (Product.isExpired_at (clock w1 (ticks w1)) o = false ->
      Product.quantity o < CartItem.quantity item ->
        fst (checkout w) = Throw (Product.name o +:+ " is out of stock."))) /\
  (forall w1 subtotal shippingFee,
     cart w <> [] ->
     for_each (cart w) validate w = (Return tt, w1) ->
     fst (calculateSubtotal w) = Return subtotal ->
     fst (calculateShippingFee w) = Return shippingFee ->
     (Customer.balance (customer w) <? subtotal + shippingFee)%float = true ->
     fst (checkout w) = Throw "Insufficient customer balance.").
Proof.
  split; [| split].
  - intros Hc. rewrite checkout_unfold, Hc. reflexivity.
  - intros pre item post o w1 Hc Hpre Ho.
    assert (Hne : cart w <> []) by (rewrite Hc; destruct pre; discriminate).
    assert (Ho1 : heap w1 !! CartItem.product item = Some o).
    { pose proof (validation_frame pre w) as Hf. rewrite Hpre in Hf. simpl in Hf.
      destruct Hf as [-> _]. exact Ho. }
    assert (Hrun : forall what, fst (validate item w1) = Throw what ->
                               fst (checkout w) = Throw what).
    { intros what Hv. apply checkout_validation_Throw; [exact Hne |].
      rewrite Hc, for_each_app, (bind_Return _ _ _ _ _ Hpre). simpl.
      apply fst_bind_Throw. exact Hv. }
    split.
    + intros He. apply Hrun. rewrite (validate_run w1 item o Ho1), He. reflexivity.
    + intros He Hq. apply Z.ltb_lt in Hq. apply Hrun.
      rewrite (validate_run w1 item o Ho1), He, Hq. reflexivity.
  - intros w1 subtotal shippingFee Hne Hv Hs Hf Hb.
    pose proof (validation_frame (cart w) w) as Hfr. rewrite Hv in Hfr. simpl in Hfr.
    destruct Hfr as (Hh & Hc & Hcu & _).
    rewrite checkout_unfold, Hv.
    rewrite (calculateSubtotal_at w w1 subtotal Hh Hc Hs).
    rewrite (calculateShippingFee_at w w1 shippingFee Hh Hc Hf).
    rewrite Hcu, Hb.
    destruct (cart w); [congruence | reflexivity].
Qed.

(** Scenarios S3, S4 (behind an item that passes, and short of stock as
    well), a stock that fell after the add, and S2. *)
Lemma checkout_checks_in_order_witness :
  fst (checkout (main_world 1000)) = Throw "Cart is empty." /\
  fst (checkout expired_world) = Throw "Cheese is expired." /\
  fst (checkout out_of_stock_world) = Throw "Biscuits is out of stock." /\
  fst (checkout use_case_2_world) = Throw "Insufficient customer balance.".
Proof.
  split; [| split; [| split]].
  - apply (proj1 (checkout_checks_in_order (main_world 1000))). reflexivity.
  - apply (proj1 (proj1 (proj2 (checkout_checks_in_order expired_world))
                   [CartItem.mk 1 1] (CartItem.mk 2 3) []
                   (Product.mk "Cheese" 100 1 (ExpirableProduct 1751413600))
                   (set_ticks 1 expired_world) eq_refl eq_refl eq_refl)).
    reflexivity.
  - apply (proj2 (proj1 (proj2 (checkout_checks_in_order out_of_stock_world))
                   [CartItem.mk 1 2] (CartItem.mk 2 6) [] biscuits
                   out_of_stock_world eq_refl eq_refl eq_refl)).
    + reflexivity.
    + simpl. lia.
  - apply (proj2 (proj2 (checkout_checks_in_order use_case_2_world))
             use_case_2_world 1400%float 111%float).
    + discriminate.
    + reflexivity.
    + vm_compute. reflexivity.
    + vm_compute. reflexivity.
    + vm_compute. reflexivity.
Defined.

(** ** CheckoutService::checkout: a checkout that returns *)

Lemma checkout_Return_inv (w w' : World) :
  checkout w = (Return tt, w') ->
  exists w1 subtotal shippingFee,
    cart w <> [] /\
    for_each (cart w) validate w = (Return tt, w1) /\
    fst (calculateSubtotal w) = Return subtotal /\
    fst (calculateShippingFee w) = Return shippingFee /\
    (Customer.balance (customer w) <? subtotal + shippingFee)%float = false /\
    commit_and_report subtotal shippingFee w1 = (Return tt, w').
Proof.
  rewrite checkout_unfold. intros H.
  destruct (cart w) as [| item rest] eqn:Hcart; [discriminate H |].
  rewrite <- Hcart in *.
  pose proof (validation_frame (cart w) w) as Hfr.
  destruct (for_each (cart w) validate w) as [[[] | what |] w1]; try discriminate H.
  simpl in Hfr. destruct Hfr as (Hh & Hc & Hcu & _).
  destruct (reads_store_calculateSubtotal w1) as [Hw2 Hsub].
  specialize (Hsub w (eq_sym Hh) (eq_sym Hc)).
  destruct (calculateSubtotal w1) as [[subtotal | what |] w2]; try discriminate H.
  simpl in Hw2, Hsub. subst w2.
  rewrite calculateShippingFee_run in H.
  destruct (Customer.balance (customer w1) <? _)%float eqn:Hb; [discriminate H |].
  rewrite Hh, Hc in H, Hb. rewrite Hcu in Hb.
  exists w1, subtotal. eexists. rewrite calculateShippingFee_run. simpl.
  split; [rewrite Hcart; discriminate |].
  split; [reflexivity |]. split; [exact Hsub |]. split; [reflexivity |].
  split; [exact Hb | exact H].
Qed.

(** The commit loop takes from every product the units that the lines for
    it order, all together, and changes nothing else of it. *)
Lemma commit_loop (items : list CartItem.t) :
  forall w w2,
    for_each items
      (fun item => reduceQuantity (CartItem.product item) (CartItem.quantity item)) w
    = (Return tt, w2) ->
    forall p o,
      heap w !! p = Some o ->
      heap w2 !! p = Some (Product.set_quantity (Product.quantity o - ordered p items) o).
Proof.
  induction items as [| item rest IH]; intros w w2 H p o Hp.
  - inversion H; subst w2. simpl. rewrite Z.sub_0_r. destruct o; exact Hp.
  - simpl in H. apply bind_Return_inv in H as ([] & w1 & Hred & Hrest).
    unfold reduceQuantity in Hred.
    apply bind_Return_inv in Hred as (o0 & w0 & Ho0 & Hred).
    apply deref_Return_inv in Ho0 as [Ho0 ->].
    destruct (Product.quantity o0 <? CartItem.quantity item); [discriminate Hred |].
    destruct (in_int (Product.quantity o0 - CartItem.quantity item)); [| discriminate Hred].
    unfold store, modify in Hred. inversion Hred; subst w1; clear Hred.
    simpl. destruct (Pos.eqb_spec (CartItem.product item) p) as [Heq | Hne].
    + subst p. rewrite Hp in Ho0. inversion Ho0; subst o0.
      rewrite (IH _ _ Hrest (CartItem.product item) _ (lookup_insert_eq _ _ _)).
      f_equal. unfold Product.set_quantity. simpl. f_equal. lia.
    + rewrite (IH _ _ Hrest p o).
      * reflexivity.
      * simpl. rewrite lookup_insert_ne by exact Hne. exact Hp.
Qed.

Lemma ordered_single (pre post : list CartItem.t) (item : CartItem.t) :
  (forall other, In other (pre ++ post) -> CartItem.product other <> CartItem.product item) ->
  ordered (CartItem.product item) (pre ++ item :: post) = CartItem.quantity item.
Proof.
  assert (Hnone : forall l, (forall other, In other l ->
                               CartItem.product other <> CartItem.product item) ->
                            ordered (CartItem.product item) l = 0).
  { induction l as [| x l IH]; intros Hl; simpl; [reflexivity |].
    destruct (Pos.eqb_spec (CartItem.product x) (CartItem.product item)) as [Heq | _].
    - destruct (Hl x (or_introl eq_refl) Heq).
    - rewrite IH; [reflexivity |]. intros other Hin. apply Hl. right. exact Hin. }
  intros Hall. induction pre as [| x pre IH]; simpl.
  - rewrite Pos.eqb_refl, Hnone; [lia |]. exact Hall.
  - destruct (Pos.eqb_spec (CartItem.product x) (CartItem.product item)) as [Heq | _].
    + destruct (Hall x (or_introl eq_refl) Heq).
    + rewrite IH; [reflexivity |]. intros other Hin. apply Hall. right. exact Hin.
Qed.

(** Every item that the validation loop passes has a product, and asks
    for no more than its stock. *)
Lemma validation_passed (items : list CartItem.t) :
  forall w w1,
    for_each items validate w = (Return tt, w1) ->
    forall item, In item items ->
      exists o, heap w !! CartItem.product item = Some o /\
                CartItem.quantity item <= Product.quantity o.
Proof.
  induction items as [| x rest IH]; intros w w1 H item Hin; [destruct Hin |].
  simpl in H. apply bind_Return_inv in H as ([] & w0 & Hx & Hrest).
  pose proof (keeps_validate heap x (fun _ _ => eq_refl) w) as Hh.
  rewrite Hx in Hh. simpl in Hh.
  destruct Hin as [<- | Hin].
  - destruct (heap w !! CartItem.product x) as [o |] eqn:Ho.
    + exists o. split; [reflexivity |].
      pose proof (validate_run w x o Ho) as Hrun. rewrite Hx in Hrun. simpl in Hrun.
      destruct (Product.isExpired_at _ o); [discriminate Hrun |].
      destruct (Z.ltb_spec (Product.quantity o) (CartItem.quantity x)); [discriminate Hrun | lia].
    + exfalso. unfold validate, isExpired, deref, bind in Hx. rewrite Ho in Hx.
      discriminate Hx.
  - rewrite <- Hh. apply (IH w0 w1 Hrest item Hin).
Qed.

Lemma getName_run w p o :
  heap w !! p = Some o -> getName p w = (Return (Product.name o), w).
Proof. intros Hp. unfold getName. now rewrite (bind_Return _ _ _ _ _ (deref_Some _ _ _ Hp)). Qed.

Lemma getTotalPrice_run w item o :
  heap w !! CartItem.product item = Some o ->
  getTotalPrice item w =
    (Return (Product.price o * double_of_int (CartItem.quantity item))%float, w).
Proof.
  intros Hp. unfold getTotalPrice, getPrice.
  now rewrite (bind_Return _ _ _ _ _ (bind_Return _ _ _ _ _ (deref_Some _ _ _ Hp))).
Qed.

Lemma set_cout_cout (w : World) : set_cout (cout w) w = w.
Proof. destruct w; reflexivity. Qed.

Lemma receipt_lines_run (items : list CartItem.t) :
  forall w w',
    for_each items receipt_line w = (Return tt, w') ->
    w' = set_cout (fold_left put (flat_map (receipt_insertions (heap w)) items) (cout w)) w.
Proof.
  induction items as [| x rest IH]; intros w w' H.
  - inversion H; subst w'. simpl. symmetry. apply set_cout_cout.
  - simpl in H. apply bind_Return_inv in H as ([] & w0 & Hx & Hrest).
    assert (Hw0 : w0 = set_cout (fold_left put (receipt_insertions (heap w) x) (cout w)) w).
    { unfold receipt_line, receipt_insertions in Hx |- *.
      destruct (heap w !! CartItem.product x) as [o |] eqn:Ho.
      - rewrite (bind_Return _ _ _ _ _ (getName_run _ _ _ Ho)) in Hx.
        rewrite (bind_Return _ _ _ _ _ (getTotalPrice_run _ _ _ Ho)) in Hx.
        inversion Hx. reflexivity.
      - unfold getName, deref, bind in Hx. rewrite Ho in Hx. discriminate Hx. }
    apply IH in Hrest. subst w0 w'. simpl.
    rewrite fold_left_app. reflexivity.
Qed.

Lemma commit_and_report_Return (subtotal shippingFee : double) (w1 w' : World) :
  commit_and_report subtotal shippingFee w1 = (Return tt, w') ->
  exists w2 w4,
    for_each (cart w1)
      (fun item => reduceQuantity (CartItem.product item) (CartItem.quantity item)) w1
    = (Return tt, w2) /\
    let w3 := set_customer
                (Customer.mk (Customer.name (customer w1))
                   (Customer.balance (customer w1) - (subtotal + shippingFee))%float) w2 in
    match map manifest_entry (List.filter (casts_to_Shippable (heap w2)) (cart w1)) with
    | [] => w4 = w3
    | manifest => ship manifest w3 = (Return tt, w4)
    end /\
    w' = set_cout (fold_left put (receipt (heap w2) (cart w1) subtotal shippingFee) (cout w4)) w4 /\
    heap w' = heap w2 /\ customer w' = customer w3.
Proof.
  unfold commit_and_report, getItems. intros H.
  apply bind_Return_inv in H as (items & w0 & Hitems & H).
  inversion Hitems; subst items w0; clear Hitems.
  apply bind_Return_inv in H as ([] & w2 & Hcommit & H).
  assert (Hcart2 : cart w2 = cart w1).
  { change w2 with (snd (Return tt, w2)). rewrite <- Hcommit.
    apply (keeps_for_each cart). intros item. apply keeps_reduceQuantity. reflexivity. }
  assert (Hcust2 : customer w2 = customer w1).
  { change w2 with (snd (Return tt, w2)). rewrite <- Hcommit.
    apply (keeps_for_each customer). intros item. apply keeps_reduceQuantity. reflexivity. }
  exists w2.
  apply bind_Return_inv in H as ([] & w3 & Hdebit & H).
  unfold deductBalance, bind, gets in Hdebit. rewrite Hcust2 in Hdebit.
  destruct (Customer.balance (customer w1) <? subtotal + shippingFee)%float;
    [discriminate Hdebit |].
  unfold modify in Hdebit. rewrite Hcust2 in Hdebit.
  inversion Hdebit; subst w3; clear Hdebit.
  rewrite (bind_Return _ _ _ _ _ (getShippableItems_run _)) in H.
  simpl heap in H. simpl cart in H. rewrite Hcart2 in H.
  apply bind_Return_inv in H as ([] & w4 & Hship & H).
  exists w4. split; [exact Hcommit |].
  assert (Hh4 : heap w4 = heap w2 /\ cart w4 = cart w1 /\
                customer w4 =
                  Customer.mk (Customer.name (customer w1))
                    (Customer.balance (customer w1) - (subtotal + shippingFee))%float).
  { destruct (map manifest_entry _) as [| e m] in Hship.
    - inversion Hship. simpl. auto.
    - change w4 with (snd (Return tt, w4)). rewrite <- Hship. split; [| split].
      + rewrite (keeps_ship heap (e :: m) (fun _ _ => eq_refl)). reflexivity.
      + rewrite (keeps_ship cart (e :: m) (fun _ _ => eq_refl)). simpl. exact Hcart2.
      + rewrite (keeps_ship customer (e :: m) (fun _ _ => eq_refl)). reflexivity. }
  destruct Hh4 as (Hh4 & Hc4 & Hcu4).
  split; [| cut (w' = set_cout (fold_left put (receipt (heap w2) (cart w1) subtotal shippingFee)
                                  (cout w4)) w4);
            [intros ->; simpl; auto |]].
  - destruct (map manifest_entry _) as [| e m]; [| exact Hship].
    inversion Hship. reflexivity.
  - unfold print in H.
    apply bind_Return_inv in H as ([] & w5 & Hhead & H).
    inversion Hhead; subst w5; clear Hhead.
    apply bind_Return_inv in H as (items & w6 & Hitems & H).
    inversion Hitems; subst items w6; clear Hitems.
    apply bind_Return_inv in H as ([] & w7 & Hlines & H).
    apply receipt_lines_run in Hlines. subst w7.
    unfold bind, modify in H. inversion H; clear H.
    simpl. rewrite Hh4, Hc4. unfold receipt.
    rewrite !fold_left_app. reflexivity.
Qed.

(** C3, as the code has it: when [checkout] returns, every product has
    lost the units ordered by all the cart lines that refer to it, taken
    together, and nothing else of it has changed; so the stock of a product
    that a single line [(p, q)] refers to has gone down by [q].  The balance
    has gone down by subtotal + shipping fee, as computed before the
    commit. *)
Theorem checkout_conservation (w w' : World) :
  checkout w = (Return tt, w') ->
  (forall p o,
     heap w !! p = Some o ->
     heap w' !! p =
       Some (Product.set_quantity (Product.quantity o - ordered p (cart w)) o)) /\
  (forall pre item post,
     cart w = pre ++ item :: post ->
     (forall other, In other (pre ++ post) ->
                    CartItem.product other <> CartItem.product item) ->
     exists o,
       heap w !! CartItem.product item = Some o /\
       heap w' !! CartItem.product item =
         Some (Product.set_quantity (Product.quantity o - CartItem.quantity item) o)) /\
  (exists subtotal shippingFee,
     fst (calculateSubtotal w) = Return subtotal /\
     fst (calculateShippingFee w) = Return shippingFee /\
     Customer.balance (customer w') =
       (Customer.balance (customer w) - (subtotal + shippingFee))%float).
Proof.
  intros H.
  apply checkout_Return_inv in H
    as (w1 & subtotal & shippingFee & Hne & Hv & Hs & Hf & Hb & H).
  apply commit_and_report_Return in H as (w2 & w4 & Hcommit & _ & _ & Hh & Hcu).
  pose proof (validation_frame (cart w) w) as Hfr. rewrite Hv in Hfr. simpl in Hfr.
  destruct Hfr as (Hh1 & Hc1 & Hcu1 & _).
  rewrite Hc1 in Hcommit.
  assert (Hstock : forall p o,
             heap w !! p = Some o ->
             heap w' !! p =
               Some (Product.set_quantity (Product.quantity o - ordered p (cart w)) o)).
  { intros p o Hp. rewrite Hh. apply (commit_loop _ _ _ Hcommit). rewrite Hh1. exact Hp. }
  split; [exact Hstock | split].
  - intros pre item post Hc Hsingle.
    destruct (validation_passed _ _ _ Hv item) as (o & Ho & _).
    { rewrite Hc. apply in_or_app. right. left. reflexivity. }
    exists o. split; [exact Ho |].
    rewrite (Hstock _ _ Ho), Hc, (ordered_single pre post item Hsingle). reflexivity.
  - exists subtotal, shippingFee. repeat split; try assumption.
    rewrite Hcu. simpl. rewrite Hcu1. reflexivity.
Qed.

(** Scenario S1: the cheese goes from 10 to 8, the biscuits, which one
    line orders, from 5 to 4, and the balance from 2000 to 1589. *)
Lemma checkout_conservation_witness :
  heap (snd (checkout use_case_1_world)) !! 1%positive
    = Some (Product.set_quantity (10 - 2) cheese) /\
  (exists o,
     heap use_case_1_world !! 2%positive = Some o /\
     heap (snd (checkout use_case_1_world)) !! 2%positive
       = Some (Product.set_quantity (Product.quantity o - 1) o)) /\
  Customer.balance (customer (snd (checkout use_case_1_world))) = 1589%float.
Proof.
  assert (Hrun : checkout use_case_1_world = (Return tt, snd (checkout use_case_1_world)))
    by (vm_compute; reflexivity).
  destruct (checkout_conservation _ _ Hrun) as (Hstock & Hline & s & f & Hs & Hf & Hbal).
  split; [| split].
  - apply (Hstock 1%positive cheese). reflexivity.
  - apply (Hline [CartItem.mk 1 2] (CartItem.mk 2 1) [CartItem.mk 4 1] eq_refl).
    intros other [<- | [<- | []]]; discriminate.
  - rewrite Hbal. vm_compute in Hs, Hf. inversion Hs. inversion Hf. reflexivity.
Defined.

(** C3, as the spec words it, fails: with two lines for one product, three
    units then two, the stock goes from 10 to 5, which is neither 10 - 3
    nor 10 - 2. *)
Lemma checkout_two_lines_counterexample :
  ~ (forall w w',
       checkout w = (Return tt, w') ->
       forall item o o',
         In item (cart w) ->
         heap w !! CartItem.product item = Some o ->
         heap w' !! CartItem.product item = Some o' ->
         Product.quantity o' = Product.quantity o - CartItem.quantity item).
Proof.
  intros H.
  specialize (H two_lines_world (snd (checkout two_lines_world))
                ltac:(vm_compute; reflexivity)
                (CartItem.mk 1 3) cheese (Product.set_quantity 5 cheese)
                (or_introl eq_refl) eq_refl ltac:(vm_compute; reflexivity)).
  simpl in H. lia.
Qed.

(** ** Carts without anything to ship *)

Lemma filter_none {A} (keep : A -> bool) (l : list A) :
  (forall x, In x l -> keep x = false) -> List.filter keep l = [].
Proof.
  induction l as [| x l IH]; intros Hl; simpl; [reflexivity |].
  rewrite (Hl x (or_introl eq_refl)). apply IH. intros y Hy. apply Hl. right. exact Hy.
Qed.

Lemma flat_map_agree {A B} (f g : A -> list B) (l : list A) :
  (forall x, In x l -> f x = g x) -> flat_map f l = flat_map g l.
Proof.
  induction l as [| x l IH]; intros Hl; simpl; [reflexivity |].
  rewrite (Hl x (or_introl eq_refl)), IH; [reflexivity |].
  intros y Hy. apply Hl. right. exact Hy.
Qed.

Lemma says_false_casts_false h item :
  says_isShippable h item = false -> casts_to_Shippable h item = false.
Proof.
  unfold says_isShippable, casts_to_Shippable, Product.isShippable, Product.derives_Shippable.
  destruct (h !! CartItem.product item) as [o |]; [| reflexivity].
  destruct (Product.class o); intros H; [discriminate H | discriminate H | reflexivity].
Qed.

(** C9: when no item's product answers [true] to [isShippable()] and
    [checkout] returns, the manifest it asked for was empty, so [ship] was
    not called; the shipping fee was 0; the customer paid subtotal + 0; and
    what [checkout] inserted into [cout] is the receipt alone, with 0 on
    its "Shipping" line. *)
Theorem checkout_nothing_to_ship (w w' : World) :
  (forall item, In item (cart w) -> says_isShippable (heap w) item = false) ->
  checkout w = (Return tt, w') ->
  fst (getShippableItems w) = Return [] /\
  fst (calculateShippingFee w) = Return 0%float /\
  exists subtotal,
    fst (calculateSubtotal w) = Return subtotal /\
    Customer.balance (customer w') =
      (Customer.balance (customer w) - (subtotal + 0))%float /\
    cout w' = fold_left put (receipt (heap w) (cart w) subtotal 0) (cout w).
Proof.
  intros Hdigital H.
  assert (Hnone : List.filter (casts_to_Shippable (heap w)) (cart w) = []).
  { apply filter_none. intros item Hin. apply says_false_casts_false, Hdigital, Hin. }
  rewrite getShippableItems_run, calculateShippingFee_run, Hnone.
  split; [reflexivity | split; [reflexivity |]].
  apply checkout_Return_inv in H
    as (w1 & subtotal & shippingFee & Hne & Hv & Hs & Hf & Hb & H).
  rewrite calculateShippingFee_run, Hnone in Hf. inversion Hf; subst shippingFee; clear Hf.
  change (fsum (map (shipping_charge (heap w)) [])) with 0%float in *.
  pose proof (validation_frame (cart w) w) as Hfr. rewrite Hv in Hfr. simpl in Hfr.
  destruct Hfr as (Hh1 & Hc1 & Hcu1 & Hout1 & _).
  apply commit_and_report_Return in H as (w2 & w4 & Hcommit & Hship & Hw' & _ & Hcu).
  rewrite Hc1 in *.
  assert (Hstock : forall item, In item (cart w) ->
             exists o, heap w !! CartItem.product item = Some o /\
                       heap w2 !! CartItem.product item =
                         Some (Product.set_quantity
                                 (Product.quantity o
                                  - ordered (CartItem.product item) (cart w)) o)).
  { intros item Hin. destruct (validation_passed _ _ _ Hv item Hin) as (o & Ho & _).
    exists o. split; [exact Ho |].
    apply (commit_loop _ _ _ Hcommit). rewrite Hh1. exact Ho. }
  assert (Hnone2 : List.filter (casts_to_Shippable (heap w2)) (cart w) = []).
  { apply filter_none. intros item Hin.
    destruct (Hstock item Hin) as (o & Ho & Ho2).
    specialize (Hdigital item Hin). apply says_false_casts_false in Hdigital.
    unfold casts_to_Shippable in *. rewrite Ho in Hdigital. rewrite Ho2. exact Hdigital. }
  rewrite Hnone2 in Hship. simpl in Hship. subst w4.
  assert (Hout2 : cout w2 = cout w).
  { change w2 with (snd (Return tt, w2)). rewrite <- Hcommit, <- Hout1.
    apply (keeps_for_each cout). intros item. apply keeps_reduceQuantity. reflexivity. }
  exists subtotal. split; [exact Hs | split].
  - rewrite Hcu. simpl. rewrite Hcu1. reflexivity.
  - rewrite Hw'. simpl. rewrite Hout2. unfold receipt.
    rewrite (flat_map_agree (receipt_insertions (heap w2)) (receipt_insertions (heap w)));
      [reflexivity |].
    intros item Hin.
    destruct (Hstock item Hin) as (o & Ho & Ho2).
    unfold receipt_insertions. rewrite Ho, Ho2. reflexivity.
Qed.

(** Scenario S6: three scratch cards; the text printed is the receipt. *)
Lemma checkout_nothing_to_ship_witness :
  fst (getShippableItems digital_world) = Return [] /\
  fst (calculateShippingFee digital_world) = Return 0%float /\
  written (cout (snd (checkout digital_world))) =
    nl +:+ "** Checkout receipt **" +:+ nl +:+
    "3x Scratch Card" +:+ tab +:+ "150" +:+ nl +:+
    "----------------------" +:+ nl +:+
    "Subtotal" +:+ tab +:+ "150" +:+ nl +:+
    "Shipping" +:+ tab +:+ "0" +:+ nl +:+
    "Amount" +:+ tab +:+ "150" +:+ nl.
Proof.
  assert (Hdigital : forall item, In item (cart digital_world) ->
                       says_isShippable (heap digital_world) item = false).
  { intros item [<- | []]. reflexivity. }
  assert (Hrun : checkout digital_world = (Return tt, snd (checkout digital_world)))
    by (vm_compute; reflexivity).
  destruct (checkout_nothing_to_ship _ _ Hdigital Hrun)
    as (Hm & Hf & subtotal & Hs & _ & Hout).
  split; [exact Hm | split; [exact Hf |]].
  rewrite Hout. vm_compute in Hs. inversion Hs. vm_compute. reflexivity.
Defined.

(** ** A checkout that fails after it has begun to commit *)

(** C1 does not hold of the code.  With two lines of three biscuits each
    and five biscuits in stock, both calls of [addToCart] return, [checkout]
    passes every check, takes three biscuits for the first line and then
    fails in [reduceQuantity] on the second: it throws "Not enough stock."
    with the stock at 2 instead of 5 (the balance and [cout] untouched). *)
Theorem checkout_partial_commit :
  fst (oversold (main_world 2000)) = Throw "Not enough stock." /\
  heap (main_world 2000) !! 2%positive = Some biscuits /\
  Product.quantity biscuits = 5 /\
  heap (snd (oversold (main_world 2000))) !! 2%positive
    = Some (Product.set_quantity 2 biscuits) /\
  customer (snd (oversold (main_world 2000))) = customer (main_world 2000) /\
  cout (snd (oversold (main_world 2000))) = cout (main_world 2000).
Proof. vm_compute. repeat split. Qed.

(** ** What does hold of a checkout that fails

    The commit cannot throw when no two lines of the cart refer to the
    same product: a checkout that throws has then changed neither a product
    nor the customer. *)

Lemma no_throw_for_each {A} (l : list A) (body : A -> M unit) :
  (forall x, no_throw (body x)) -> no_throw (for_each l body).
Proof.
  intros Hbody. induction l as [| x l IH]; simpl.
  - apply no_throw_ret.
  - apply no_throw_bind; [apply Hbody | intros _; exact IH].
Qed.

Lemma no_throw_receipt_line item : no_throw (receipt_line item).
Proof.
  unfold receipt_line, getName, getTotalPrice, getPrice.
  repeat first [apply no_throw_bind; [| intros ?] | solve [auto with no_throw]].
Qed.

Lemma no_throw_getShippableItems : no_throw getShippableItems.
Proof. intros w what. rewrite getShippableItems_run. discriminate. Qed.

Lemma commit_no_throw (items : list CartItem.t) :
  forall w,
    List.NoDup (map CartItem.product items) ->
    (forall item, In item items ->
       exists o, heap w !! CartItem.product item = Some o /\
                 CartItem.quantity item <= Product.quantity o) ->
    forall what,
      fst (for_each items
             (fun item => reduceQuantity (CartItem.product item) (CartItem.quantity item)) w)
      <> Throw what.
Proof.
  induction items as [| x rest IH]; intros w Hnd Hstock what; [discriminate |].
  simpl in Hnd. inversion Hnd as [| p ps Hnotin Hnd']; subst p ps.
  destruct (Hstock x (or_introl eq_refl)) as (o & Ho & Hq).
  simpl. unfold bind at 1. unfold reduceQuantity.
  rewrite (bind_Return _ _ _ _ _ (deref_Some _ _ _ Ho)).
  apply Z.ltb_ge in Hq. rewrite Hq.
  destruct (in_int (Product.quantity o - CartItem.quantity x)); [| discriminate].
  unfold store, modify.
  apply IH; [exact Hnd' |].
  intros item Hin. destruct (Hstock item (or_intror Hin)) as (o' & Ho' & Hq').
  exists o'. split; [| exact Hq'].
  simpl. rewrite lookup_insert_ne; [exact Ho' |].
  intros Heq. apply Hnotin. rewrite Heq. apply in_map. exact Hin.
Qed.

Lemma commit_and_report_no_throw (subtotal shippingFee : double) (w : World) :
  List.NoDup (map CartItem.product (cart w)) ->
  (forall item, In item (cart w) ->
     exists o, heap w !! CartItem.product item = Some o /\
               CartItem.quantity item <= Product.quantity o) ->
  (Customer.balance (customer w) <? subtotal + shippingFee)%float = false ->
  forall what, fst (commit_and_report subtotal shippingFee w) <> Throw what.
Proof.
  intros Hnd Hstock Hb what. unfold commit_and_report, getItems.
  rewrite (bind_Return (gets cart) _ w (cart w) w eq_refl).
  pose proof (commit_no_throw (cart w) w Hnd Hstock) as Hcommit.
  pose proof (keeps_for_each customer (cart w)
                (fun item => reduceQuantity (CartItem.product item) (CartItem.quantity item))
                (fun item => keeps_reduceQuantity customer _ _ (fun _ _ => eq_refl)) w) as Hcu.
  unfold bind at 1.
  destruct (for_each (cart w) _ w) as [[[] | what' |] w2]; simpl in Hcommit, Hcu |- *;
    [| destruct (Hcommit what' eq_refl) | discriminate].
  unfold deductBalance at 1, bind at 1, bind at 1, gets at 1. rewrite Hcu, Hb.
  unfold modify at 1.
  apply no_throw_bind; [apply no_throw_getShippableItems | intros m].
  apply no_throw_bind;
    [destruct m; [apply no_throw_ret | apply no_throw_ship] | intros _].
  apply no_throw_bind; [apply no_throw_print | intros _].
  apply no_throw_bind; [apply no_throw_gets | intros items].
  apply no_throw_bind;
    [apply no_throw_for_each; intros item; apply no_throw_receipt_line | intros _].
  repeat first [apply no_throw_bind; [| intros ?] | apply no_throw_print].
Qed.

(** X12: when no two lines of the cart refer to the same product, a
    [checkout] that throws has changed no product and not the customer. *)
Lemma checkout_rejection_keeps_store (w : World) (what : string) :
  List.NoDup (map CartItem.product (cart w)) ->
  fst (checkout w) = Throw what ->
  heap (snd (checkout w)) = heap w /\ customer (snd (checkout w)) = customer w.
Proof.
  intros Hnd. rewrite checkout_unfold.
  destruct (cart w) as [| item rest] eqn:Hcart; [auto |].
  rewrite <- Hcart in *.
  pose proof (validation_frame (cart w) w) as Hfr.
  pose proof (validation_passed (cart w) w) as Hpassed.
  destruct (for_each (cart w) validate w) as [[[] | what1 |] w1];
    simpl in Hfr; destruct Hfr as (Hh & Hc & Hcu & _);
    [| intros _; simpl; auto | discriminate].
  specialize (Hpassed w1 eq_refl).
  destruct (reads_store_calculateSubtotal w1) as [Hw2 _].
  destruct (calculateSubtotal w1) as [[subtotal | what2 |] w2]; simpl in Hw2; subst w2;
    [| intros _; simpl; auto | discriminate].
  rewrite calculateShippingFee_run.
  destruct (Customer.balance (customer w1) <? _)%float eqn:Hb; [intros _; simpl; auto |].
  intros Hthrow. exfalso.
  revert Hthrow. apply commit_and_report_no_throw; [| | exact Hb].
  - rewrite Hc. exact Hnd.
  - rewrite Hc, Hh. exact Hpassed.
Qed.

(** * Further properties *)

(** ** Cart::calculateSubtotal *)

Lemma calculateSubtotal_loop (w : World) (items : list CartItem.t) :
  forall sum,
    for_fold items
      (fun sum item => t <- getTotalPrice item;; ret (sum + t)%float) sum w
    = (if forallb (has_product (heap w)) items
       then Return (fold_left PrimFloat.add (map (line_total (heap w)) items) sum)
       else Undefined, w).
Proof.
  induction items as [| x rest IH]; intros sum; simpl; [reflexivity |].
  assert (Hhas : has_product (heap w) x
                 = match heap w !! CartItem.product x with Some _ => true | None => false end)
    by reflexivity.
  assert (Hlt : line_total (heap w) x
                = match heap w !! CartItem.product x with
                  | Some o => (Product.price o * double_of_int (CartItem.quantity x))%float
                  | None => 0%float
                  end) by reflexivity.
  rewrite Hhas, Hlt.
  destruct (heap w !! CartItem.product x) as [o |] eqn:Ho; simpl.
  - rewrite (bind_Return _ _ _ _ _
               (bind_Return _ _ _ _ _ (getTotalPrice_run _ _ _ Ho))).
    apply IH.
  - unfold getTotalPrice, getPrice, deref, bind. rewrite Ho. reflexivity.
Qed.

(** X1: [calculateSubtotal] changes nothing.  When every item of the cart
    has a product it returns the sum, added in cart order onto 0.0, of
    [getPrice() * quantity]; when an item's pointer is null the behaviour is
    undefined (and never an exception). *)
Theorem calculateSubtotal_outcome (w : World) :
  snd (calculateSubtotal w) = w /\
  (forallb (has_product (heap w)) (cart w) = true ->
     fst (calculateSubtotal w) = Return (fsum (map (line_total (heap w)) (cart w)))) /\
  (forallb (has_product (heap w)) (cart w) = false ->
     fst (calculateSubtotal w) = Undefined).
Proof.
  unfold calculateSubtotal.
  rewrite (bind_Return (gets cart) _ w (cart w) w eq_refl), calculateSubtotal_loop.
  split; [reflexivity | split]; intros ->; reflexivity.
Qed.

(** Scenario S1 has the subtotal 400; a cart with a null product has none. *)
Lemma calculateSubtotal_outcome_witness :
  fst (calculateSubtotal use_case_1_world) = Return 400%float /\
  fst (calculateSubtotal (set_cart [CartItem.mk 9 1] use_case_1_world)) = Undefined.
Proof.
  split.
  - rewrite (proj1 (proj2 (calculateSubtotal_outcome use_case_1_world)) eq_refl).
    vm_compute. reflexivity.
  - apply (proj2 (proj2 (calculateSubtotal_outcome
                           (set_cart [CartItem.mk 9 1] use_case_1_world)))).
    reflexivity.
Defined.

(** ** ShippingService::ship on a manifest *)

Lemma ship_loop (items : list (ptr * Z)) :
  forall w total,
    forallb (entry_ok (heap w)) items = true ->
    for_fold items
      (fun totalWeight pair =>
         let item := fst pair in
         let qty := snd pair in
         w <- getWeight item;;
         let weight := (w * double_of_int qty)%float in
         let totalWeight := (totalWeight + weight)%float in
         n <- Shippable_getName item;;
         print [int qty; str "x "; str n; str tab;
                fixed; setprecision 0; dbl (weight * 1000)%float; str ("g" +:+ nl)];;
         ret totalWeight) total w
    = (Return (fold_left PrimFloat.add (map (entry_weight (heap w)) items) total),
       set_cout (fold_left put (flat_map (entry_insertions (heap w)) items) (cout w)) w).
Proof.
  induction items as [| [p q] rest IH]; intros w total Hok.
  - simpl. unfold ret. rewrite set_cout_cout. reflexivity.
  - simpl in Hok. apply andb_true_iff in Hok as [Hp Hrest].
    unfold entry_ok in Hp. simpl in Hp.
    destruct (heap w !! p) as [o |] eqn:Ho; [| discriminate Hp].
    unfold Product.derives_Shippable in Hp.
    destruct (Product.class o) as [| weight |] eqn:Hclass; try discriminate Hp.
    assert (Hw : entry_weight (heap w) (p, q) = (weight * double_of_int q)%float).
    { unfold entry_weight. simpl. rewrite Ho. destruct o; simpl in Hclass.
      rewrite Hclass. reflexivity. }
    assert (Hins : entry_insertions (heap w) (p, q)
                   = [int q; str "x "; str (Product.name o); str tab; fixed; setprecision 0;
                      dbl (weight * double_of_int q * 1000)%float; str ("g" +:+ nl)]).
    { unfold entry_insertions. simpl. rewrite Ho, Hw. reflexivity. }
    cbn [for_fold map flat_map fold_left]. rewrite Hw, Hins.
    unfold bind at 1.
    assert (Hbody :
      (w0 <- getWeight (fst (p, q));;
       n <- Shippable_getName (fst (p, q));;
       print [int (snd (p, q)); str "x "; str n; str tab; fixed; setprecision 0;
              dbl (w0 * double_of_int (snd (p, q)) * 1000)%float; str ("g" +:+ nl)];;
       ret (total + w0 * double_of_int (snd (p, q)))%float) w
      = (Return (total + weight * double_of_int q)%float,
         set_cout
           (fold_left put
              [int q; str "x "; str (Product.name o); str tab; fixed; setprecision 0;
               dbl (weight * double_of_int q * 1000)%float; str ("g" +:+ nl)] (cout w)) w)).
    { unfold getWeight, Shippable_getName, deref, bind, print, modify, ret. simpl.
      rewrite Ho, Hclass. simpl. rewrite Ho, Hclass. reflexivity. }
    rewrite Hbody.
    rewrite IH by exact Hrest.
    cbn [heap set_cout cout]. rewrite fold_left_app. reflexivity.
Qed.

Lemma ship_run (manifest : list (ptr * Z)) (w : World) :
  forallb (entry_ok (heap w)) manifest = true ->
  ship manifest w
  = (Return tt, set_cout (fold_left put (notice (heap w) manifest) (cout w)) w).
Proof.
  intros Hok. unfold ship, print, notice, fsum.
  unfold bind at 1. unfold modify at 1.
  unfold bind at 1.
  rewrite ship_loop by exact Hok.
  unfold modify. cbn [heap set_cout cout].
  rewrite !fold_left_app. reflexivity.
Qed.

(** X2: on a manifest whose entries all refer to [ShippableProduct]s,
    [ship] returns, having changed [cout] only: it has inserted the header,
    then for each entry in manifest order the line
    "<qty>x <name>\t<weight * qty * 1000>g" with precision 0, then the total
    weight (the weights added in manifest order onto 0.0) with precision 1.
    It leaves [cout] at [fixed] with precision 1. *)
Theorem ship_notice (manifest : list (ptr * Z)) (w : World) :
  forallb (entry_ok (heap w)) manifest = true ->
  ship manifest w
    = (Return tt, set_cout (fold_left put (notice (heap w) manifest) (cout w)) w) /\
  floatfield_fixed (cout (snd (ship manifest w))) = true /\
  precision (cout (snd (ship manifest w))) = 1%nat.
Proof.
  intros Hok. rewrite (ship_run manifest w Hok).
  split; [reflexivity |].
  unfold notice. rewrite app_assoc, fold_left_app. split; reflexivity.
Qed.

(** The notice of scenario S1. *)
Lemma ship_notice_witness :
  written (cout (snd (ship [(1%positive, 2); (2%positive, 1)] (main_world 2000)))) =
    nl +:+ "** Shipment notice **" +:+ nl +:+
    "2x Cheese" +:+ tab +:+ "400g" +:+ nl +:+
    "1x Biscuits" +:+ tab +:+ "700g" +:+ nl +:+
    "Total package weight 1.1kg" +:+ nl.
Proof.
  rewrite (proj1 (ship_notice [(1%positive, 2); (2%positive, 1)] (main_world 2000) eq_refl)).
  vm_compute. reflexivity.
Defined.

(** X3: the manifest that [getShippableItems] returns can always be
    shipped: in every world, [ship] applied to it returns (no exception, no
    undefined behaviour) and only changes [cout]. *)
Theorem ship_manifest_returns (w : World) :
  exists manifest,
    getShippableItems w = (Return manifest, w) /\
    ship manifest w
      = (Return tt, set_cout (fold_left put (notice (heap w) manifest) (cout w)) w).
Proof.
  exists (manifest_of (heap w) (cart w)).
  split; [apply getShippableItems_run |].
  apply ship_run. unfold manifest_of.
  induction (cart w) as [| item rest IH]; simpl; [reflexivity |].
  destruct (casts_to_Shippable (heap w) item) eqn:Hcast; [| exact IH].
  simpl. rewrite IH, andb_true_r. exact Hcast.
Qed.

(** ** CheckoutService::checkout: what a checkout that returns has printed *)

Lemma manifest_entries_ok h items : forallb (entry_ok h) (manifest_of h items) = true.
Proof.
  unfold manifest_of.
  induction items as [| item rest IH]; simpl; [reflexivity |].
  destruct (casts_to_Shippable h item) eqn:Hcast; [| exact IH].
  simpl. rewrite IH, andb_true_r. exact Hcast.
Qed.

(** Two heaps that differ in the stocks only give the same manifest, the
    same notice and the same receipt lines. *)
Lemma goods_agree (h h2 : gmap ptr Product.t) (items : list CartItem.t) :
  (forall item, In item items ->
     exists o q, h !! CartItem.product item = Some o /\
                 h2 !! CartItem.product item = Some (Product.set_quantity q o)) ->
  manifest_of h2 items = manifest_of h items /\
  flat_map (receipt_insertions h2) items = flat_map (receipt_insertions h) items /\
  notice h2 (manifest_of h items) = notice h (manifest_of h items).
Proof.
  intros Hagree.
  assert (Hcast : forall item, In item items ->
                    casts_to_Shippable h2 item = casts_to_Shippable h item).
  { intros item Hin. destruct (Hagree item Hin) as (o & q & Ho & Ho2).
    unfold casts_to_Shippable. rewrite Ho, Ho2. reflexivity. }
  assert (Hentry : forall e, In e (manifest_of h items) ->
                     entry_weight h2 e = entry_weight h e /\
                     entry_insertions h2 e = entry_insertions h e).
  { intros e He. unfold manifest_of in He. apply in_map_iff in He as (item & <- & Hin).
    apply List.filter_In in Hin as [Hin _].
    destruct (Hagree item Hin) as (o & q & Ho & Ho2).
    assert (Hw : entry_weight h2 (manifest_entry item) = entry_weight h (manifest_entry item)).
    { unfold entry_weight, manifest_entry. simpl. rewrite Ho, Ho2. destruct o; reflexivity. }
    split; [exact Hw |].
    unfold entry_insertions. rewrite Hw. unfold manifest_entry. simpl.
    rewrite Ho, Ho2. reflexivity. }
  split; [| split].
  - unfold manifest_of. f_equal.
    clear Hentry Hagree. induction items as [| x rest IH]; simpl; [reflexivity |].
    rewrite (Hcast x (or_introl eq_refl)), IH; [reflexivity |].
    intros item Hin. apply Hcast. right. exact Hin.
  - apply flat_map_agree. intros item Hin.
    destruct (Hagree item Hin) as (o & q & Ho & Ho2).
    unfold receipt_insertions. rewrite Ho, Ho2. reflexivity.
  - unfold notice.
    rewrite (flat_map_agree (entry_insertions h2) (entry_insertions h))
      by (intros e He; apply Hentry, He).
    rewrite (map_ext_in (entry_weight h2) (entry_weight h))
      by (intros e He; apply Hentry, He).
    reflexivity.
Qed.

(** X4: when [checkout] returns, what it has inserted into [cout] is the
    shipment notice of the cart's manifest, if that manifest is not empty,
    and then the receipt: the notice comes first.  After a notice the
    receipt is printed on a stream left at [fixed] with precision 1, so its
    amounts show one decimal. *)
Theorem checkout_output (w w' : World) :
  checkout w = (Return tt, w') ->
  exists subtotal shippingFee,
    fst (calculateSubtotal w) = Return subtotal /\
    fst (calculateShippingFee w) = Return shippingFee /\
    cout w' =
      fold_left put
        (shipment (heap w) (cart w) ++ receipt (heap w) (cart w) subtotal shippingFee)
        (cout w) /\
    (manifest_of (heap w) (cart w) <> [] ->
     exists os,
       floatfield_fixed os = true /\ precision os = 1%nat /\
       cout w' = fold_left put (receipt (heap w) (cart w) subtotal shippingFee) os).
Proof.
  intros H.
  apply checkout_Return_inv in H
    as (w1 & subtotal & shippingFee & Hne & Hv & Hs & Hf & Hb & H).
  pose proof (validation_frame (cart w) w) as Hfr. rewrite Hv in Hfr. simpl in Hfr.
  destruct Hfr as (Hh1 & Hc1 & Hcu1 & Hout1 & _).
  apply commit_and_report_Return in H as (w2 & w4 & Hcommit & Hship & Hw' & _ & _).
  rewrite Hc1 in *.
  assert (Hout2 : cout w2 = cout w).
  { change w2 with (snd (Return tt, w2)). rewrite <- Hcommit, <- Hout1.
    apply (keeps_for_each cout). intros item. apply keeps_reduceQuantity. reflexivity. }
  destruct (goods_agree (heap w) (heap w2) (cart w)) as (Hm & Hlines & Hnotice).
  { intros item Hin. destruct (validation_passed _ _ _ Hv item Hin) as (o & Ho & _).
    exists o. eexists. split; [exact Ho |].
    apply (commit_loop _ _ _ Hcommit). rewrite Hh1. exact Ho. }
  fold (manifest_of (heap w2) (cart w)) in Hship. rewrite Hm in Hship.
  assert (Hcout : cout w' =
                    fold_left put (receipt (heap w) (cart w) subtotal shippingFee)
                      (fold_left put (shipment (heap w) (cart w)) (cout w))).
  { rewrite Hw'. cbn [cout set_cout]. unfold receipt. rewrite Hlines.
    f_equal. unfold shipment.
    destruct (manifest_of (heap w) (cart w)) as [| e m] eqn:Hmf.
    - subst w4. simpl. exact Hout2.
    - rewrite ship_run in Hship.
      + apply (f_equal snd) in Hship. cbn [snd] in Hship. rewrite <- Hship.
        cbn [cout set_cout set_customer heap].
        rewrite Hout2, Hnotice. reflexivity.
      + cbn [heap set_customer]. rewrite <- Hm. apply manifest_entries_ok. }
  exists subtotal, shippingFee.
  split; [exact Hs | split; [exact Hf | split]].
  - rewrite fold_left_app. exact Hcout.
  - intros Hmne. eexists. split; [| split; [| exact Hcout]].
    + unfold shipment. destruct (manifest_of (heap w) (cart w)); [congruence |].
      unfold notice. rewrite app_assoc, fold_left_app. reflexivity.
    + unfold shipment. destruct (manifest_of (heap w) (cart w)); [congruence |].
      unfold notice. rewrite app_assoc, fold_left_app. reflexivity.
Qed.

(** Scenario S1: the notice, then the receipt with amounts such as 200.0. *)
Lemma checkout_output_witness :
  written (cout (snd (checkout use_case_1_world))) =
    nl +:+ "** Shipment notice **" +:+ nl +:+
    "2x Cheese" +:+ tab +:+ "400g" +:+ nl +:+
    "1x Biscuits" +:+ tab +:+ "700g" +:+ nl +:+
    "Total package weight 1.1kg" +:+ nl +:+
    nl +:+ "** Checkout receipt **" +:+ nl +:+
    "2x Cheese" +:+ tab +:+ "200.0" +:+ nl +:+
    "1x Biscuits" +:+ tab +:+ "150.0" +:+ nl +:+
    "1x Scratch Card" +:+ tab +:+ "50.0" +:+ nl +:+
    "----------------------" +:+ nl +:+
    "Subtotal" +:+ tab +:+ "400.0" +:+ nl +:+
    "Shipping" +:+ tab +:+ "11.0" +:+ nl +:+
    "Amount" +:+ tab +:+ "411.0" +:+ nl.
Proof.
  assert (Hrun : checkout use_case_1_world = (Return tt, snd (checkout use_case_1_world)))
    by (vm_compute; reflexivity).
  destruct (checkout_output _ _ Hrun) as (s & f & Hs & Hf & Hout & _).
  rewrite Hout. vm_compute in Hs, Hf. inversion Hs. inversion Hf.
  vm_compute. reflexivity.
Defined.

(** ** CheckoutService::checkout: the errors it can throw *)

Lemma validation_Throw (items : list CartItem.t) :
  forall w what,
    fst (for_each items validate w) = Throw what ->
    exists item o,
      In item items /\ heap w !! CartItem.product item = Some o /\
      (what = Product.name o +:+ " is expired." \/
       what = Product.name o +:+ " is out of stock.").
Proof.
  induction items as [| x rest IH]; intros w what H; [discriminate H |].
  simpl in H. unfold bind in H.
  pose proof (keeps_validate heap x (fun _ _ => eq_refl) w) as Hh.
  destruct (heap w !! CartItem.product x) as [o |] eqn:Ho.
  - pose proof (validate_run w x o Ho) as Hrun.
    destruct (validate x w) as [[[] | what' |] w0]; simpl in H, Hh, Hrun.
    + destruct (IH w0 what H) as (item & o' & Hin & Ho' & Hmsg).
      exists item, o'. rewrite <- Hh. auto using in_cons.
    + inversion H; subst what'. exists x, o.
      split; [left; reflexivity | split; [exact Ho |]].
      destruct (Product.isExpired_at _ o); [inversion Hrun; auto |].
      destruct (Product.quantity o <? CartItem.quantity x); inversion Hrun; auto.
    + discriminate H.
  - unfold validate, isExpired, deref, bind in H. rewrite Ho in H. discriminate H.
Qed.

Lemma commit_loop_Throw (items : list CartItem.t) :
  forall w what,
    fst (for_each items
           (fun item => reduceQuantity (CartItem.product item) (CartItem.quantity item)) w)
    = Throw what ->
    what = "Not enough stock."%string.
Proof.
  induction items as [| x rest IH]; intros w what H; [discriminate H |].
  simpl in H. unfold bind at 1 in H.
  destruct (reduceQuantity (CartItem.product x) (CartItem.quantity x) w)
    as [[[] | what' |] w0] eqn:Hred; simpl in H.
  - apply (IH w0 what H).
  - inversion H; subst what'. clear H.
    unfold reduceQuantity, deref, bind in Hred.
    destruct (heap w !! CartItem.product x) as [o |]; [| discriminate Hred].
    destruct (Product.quantity o <? CartItem.quantity x); [inversion Hred; reflexivity |].
    destruct (in_int _); discriminate Hred.
  - discriminate H.
Qed.

Lemma commit_and_report_Throw (subtotal shippingFee : double) (w : World) what :
  (Customer.balance (customer w) <? subtotal + shippingFee)%float = false ->
  fst (commit_and_report subtotal shippingFee w) = Throw what ->
  what = "Not enough stock."%string.
Proof.
  intros Hb. unfold commit_and_report, getItems.
  rewrite (bind_Return (gets cart) _ w (cart w) w eq_refl).
  pose proof (commit_loop_Throw (cart w) w) as Hcommit.
  pose proof (keeps_for_each customer (cart w)
                (fun item => reduceQuantity (CartItem.product item) (CartItem.quantity item))
                (fun item => keeps_reduceQuantity customer _ _ (fun _ _ => eq_refl)) w) as Hcu.
  unfold bind at 1.
  destruct (for_each (cart w) _ w) as [[[] | what' |] w2]; simpl in Hcommit, Hcu |- *.
  - unfold deductBalance at 1, bind at 1, bind at 1, gets at 1. rewrite Hcu, Hb.
    unfold modify at 1. intros H. exfalso. revert H.
    apply no_throw_bind; [apply no_throw_getShippableItems | intros m].
    apply no_throw_bind;
      [destruct m; [apply no_throw_ret | apply no_throw_ship] | intros _].
    apply no_throw_bind; [apply no_throw_print | intros _].
    apply no_throw_bind; [apply no_throw_gets | intros items].
    apply no_throw_bind;
      [apply no_throw_for_each; intros item; apply no_throw_receipt_line | intros _].
    repeat first [apply no_throw_bind; [| intros ?] | apply no_throw_print].
  - intros H. inversion H; subst what'. apply Hcommit. reflexivity.
  - discriminate.
Qed.

(** X5: the errors of [checkout].  When [checkout] throws, either the
    message is "Not enough stock." (thrown by [reduceQuantity] during the
    commit), or no product, the customer and [cout] are as they were and
    the message is "Cart is empty." (the cart being empty), "<name> is
    expired." or "<name> is out of stock." for the product of an item of
    the cart, or "Insufficient customer balance.".  In particular the error
    "Insufficient balance." of [deductBalance] never comes out of
    [checkout]. *)
Theorem checkout_errors (w : World) (what : string) :
  fst (checkout w) = Throw what ->
  what = "Not enough stock."%string \/
  (heap (snd (checkout w)) = heap w /\
   customer (snd (checkout w)) = customer w /\
   cout (snd (checkout w)) = cout w /\
   ((what = "Cart is empty."%string /\ cart w = []) \/
    (exists item o,
       In item (cart w) /\ heap w !! CartItem.product item = Some o /\
       (what = Product.name o +:+ " is expired." \/
        what = Product.name o +:+ " is out of stock.")) \/
    what = "Insufficient customer balance."%string)).
Proof.
  rewrite checkout_unfold.
  destruct (cart w) as [| item rest] eqn:Hcart.
  { intros H. inversion H. right. simpl. auto 10. }
  rewrite <- Hcart in *.
  pose proof (validation_frame (cart w) w) as Hfr.
  pose proof (validation_Throw (cart w) w) as Hval.
  destruct (for_each (cart w) validate w) as [[[] | what1 |] w1];
    simpl in Hfr, Hval; destruct Hfr as (Hh & Hc & Hcu & Hout & _).
  - destruct (reads_store_calculateSubtotal w1) as [Hw2 _].
    pose proof (calculateSubtotal_loop w1 (cart w1) 0%float) as Hsub.
    destruct (calculateSubtotal w1) as [[subtotal | what2 |] w2] eqn:Hs;
      simpl in Hw2; subst w2.
    + rewrite calculateShippingFee_run.
      destruct (Customer.balance (customer w1) <? _)%float eqn:Hb.
      * intros H. inversion H. right. simpl. auto 10.
      * intros H. left. apply (commit_and_report_Throw _ _ _ _ Hb H).
    + exfalso. unfold calculateSubtotal in Hs.
      rewrite (bind_Return (gets cart) _ w1 (cart w1) w1 eq_refl), Hsub in Hs.
      destruct (forallb _ _); discriminate Hs.
    + discriminate.
  - intros H. inversion H; subst what1. right. simpl.
    repeat (split; [assumption |]). right. left. apply Hval. reflexivity.
  - discriminate.
Qed.

(** Scenarios S3, S4 and S2 leave everything as it was. *)
Lemma checkout_errors_witness :
  heap (snd (checkout (main_world 1000))) = heap (main_world 1000) /\
  heap (snd (checkout expired_world)) = heap expired_world /\
  customer (snd (checkout use_case_2_world)) = customer use_case_2_world.
Proof.
  split; [| split].
  - destruct (checkout_errors (main_world 1000) "Cart is empty." eq_refl)
      as [H | (H & _)]; [discriminate H | exact H].
  - destruct (checkout_errors expired_world "Cheese is expired." eq_refl)
      as [H | (H & _)]; [discriminate H | exact H].
  - destruct (checkout_errors use_case_2_world "Insufficient customer balance." eq_refl)
      as [H | (_ & H & _)]; [discriminate H | exact H].
Defined.

(** ** The validation loop under a clock that stands still *)

(** X6: while the clock reads [now], the validation loop of [checkout]
    returns exactly on the lists of items that each have a product, not
    expired at [now] (its expiry date is not before [now]: a product is still
    good in the second of its expiry), with a stock at least the quantity
    asked. *)
Theorem validation_accepts (items : list CartItem.t) :
  forall (w : World) (now : time_t),
    (forall k, clock w k = now) ->
    (fst (for_each items validate w) = Return tt <->
     forallb (item_ok now (heap w)) items = true).
Proof.
  induction items as [| x rest IH]; intros w now Hstill; [split; reflexivity |].
  simpl. unfold bind.
  pose proof (keeps_validate heap x (fun _ _ => eq_refl) w) as Hh.
  pose proof (keeps_validate clock x (fun _ _ => eq_refl) w) as Hck.
  assert (Hok : item_ok now (heap w) x
                = match heap w !! CartItem.product x with
                  | Some o => negb (Product.isExpired_at now o)
                              && (CartItem.quantity x <=? Product.quantity o)
                  | None => false
                  end) by reflexivity.
  rewrite Hok.
  destruct (heap w !! CartItem.product x) as [o |] eqn:Ho.
  - pose proof (validate_run w x o Ho) as Hrun. rewrite Hstill in Hrun.
    destruct (validate x w) as [[[] | what |] w0]; simpl in Hh, Hck, Hrun |- *.
    + assert (Hstill0 : forall k, clock w0 k = now) by (rewrite Hck; exact Hstill).
      rewrite (IH w0 now Hstill0), Hh.
      destruct (Product.isExpired_at now o); [discriminate Hrun |].
      destruct (Z.ltb_spec (Product.quantity o) (CartItem.quantity x)); [discriminate Hrun |].
      replace (CartItem.quantity x <=? Product.quantity o) with true
        by (symmetry; apply Z.leb_le; lia).
      reflexivity.
    + split; [discriminate |]. intros H. exfalso.
      apply andb_true_iff in H as [H _]. apply andb_true_iff in H as [He Hq].
      apply Z.leb_le in Hq. apply negb_true_iff in He. rewrite He in Hrun.
      destruct (Z.ltb_spec (Product.quantity o) (CartItem.quantity x));
        [lia | discriminate Hrun].
    + exfalso. destruct (Product.isExpired_at now o); [discriminate Hrun |].
      destruct (Product.quantity o <? CartItem.quantity x); discriminate Hrun.
  - unfold validate, isExpired, deref, bind. rewrite Ho. simpl.
    split; discriminate.
Qed.

(** The cart of scenario S1 passes; a cheese in the very second of its
    expiry passes too. *)
Lemma validation_accepts_witness :
  fst (for_each (cart use_case_1_world) validate use_case_1_world) = Return tt /\
  fst (for_each [CartItem.mk 1 2] validate
         (set_heap {[ 1%positive := Product.mk "Cheese" 100 10 (ExpirableProduct 1751500000) ]}
            (main_world 2000))) = Return tt.
Proof.
  split.
  - apply (validation_accepts _ use_case_1_world 1751500000); reflexivity.
  - apply (validation_accepts _ _ 1751500000); reflexivity.
Defined.

(** ** The commit of checkout: when it goes through and when it fails *)

Lemma ordered_nonneg (p : ptr) (items : list CartItem.t) :
  (forall item, In item items -> 0 <= CartItem.quantity item) ->
  0 <= ordered p items.
Proof.
  induction items as [| x rest IH]; intros Hq; simpl; [lia |].
  specialize (IH (fun item Hin => Hq item (or_intror Hin))).
  specialize (Hq x (or_introl eq_refl)).
  destruct (Pos.eqb _ _); lia.
Qed.

(** One step of the commit on a line that asks for no more than the stock. *)
Lemma reduceQuantity_returns (w : World) (p : ptr) (o : Product.t) (q : Z) :
  heap w !! p = Some o ->
  0 <= q <= Product.quantity o ->
  in_int (Product.quantity o) = true ->
  reduceQuantity p q w
  = (Return tt, set_heap (<[p := Product.set_quantity (Product.quantity o - q) o]> (heap w)) w).
Proof.
  intros Ho Hq Hint. unfold reduceQuantity.
  rewrite (bind_Return _ _ _ _ _ (deref_Some _ _ _ Ho)).
  replace (Product.quantity o <? q) with false by (symmetry; apply Z.ltb_ge; lia).
  replace (in_int (Product.quantity o - q)) with true; [reflexivity |].
  symmetry. unfold in_int, int_min, int_max in *.
  apply andb_true_iff in Hint as [Hlo Hhi]. apply Z.leb_le in Hlo, Hhi.
  apply andb_true_iff. split; apply Z.leb_le; lia.
Qed.

Lemma in_int_after (o : Product.t) (q : Z) :
  0 <= q <= Product.quantity o ->
  in_int (Product.quantity o) = true ->
  in_int (Product.quantity (Product.set_quantity (Product.quantity o - q) o)) = true.
Proof.
  intros Hq Hint. simpl. unfold in_int, int_min, int_max in *.
  apply andb_true_iff in Hint as [Hlo Hhi]. apply Z.leb_le in Hlo, Hhi.
  apply andb_true_iff. split; apply Z.leb_le; lia.
Qed.

Lemma commit_returns (items : list CartItem.t) :
  forall w,
    (forall item, In item items -> is_Some (heap w !! CartItem.product item)) ->
    (forall item, In item items -> 0 <= CartItem.quantity item) ->
    (forall p o, heap w !! p = Some o -> in_int (Product.quantity o) = true) ->
    (forall p o, heap w !! p = Some o -> ordered p items <= Product.quantity o) ->
    exists w2,
      for_each items
        (fun item => reduceQuantity (CartItem.product item) (CartItem.quantity item)) w
      = (Return tt, w2).
Proof.
  induction items as [| x rest IH]; intros w Hex Hq Hint Hord; [eexists; reflexivity |].
  destruct (Hex x (or_introl eq_refl)) as [o Ho].
  pose proof (Hq x (or_introl eq_refl)) as Hqx.
  pose proof (ordered_nonneg (CartItem.product x) rest
                (fun item Hin => Hq item (or_intror Hin))) as Hrest.
  pose proof (Hord _ _ Ho) as Hox. simpl in Hox. rewrite Pos.eqb_refl in Hox.
  assert (Hrange : 0 <= CartItem.quantity x <= Product.quantity o) by lia.
  simpl.
  rewrite (bind_Return _ _ _ _ _
             (reduceQuantity_returns w _ o _ Ho Hrange (Hint _ _ Ho))).
  apply IH.
  - intros item Hin. simpl.
    destruct (decide (CartItem.product x = CartItem.product item)) as [<- | Hne].
    + rewrite lookup_insert_eq. eauto.
    + rewrite lookup_insert_ne by exact Hne. apply Hex. right. exact Hin.
  - intros item Hin. apply Hq. right. exact Hin.
  - intros p o'. simpl.
    destruct (decide (CartItem.product x = p)) as [<- | Hne].
    + rewrite lookup_insert_eq. intros H. inversion H.
      apply in_int_after; [lia | apply (Hint _ _ Ho)].
    + rewrite lookup_insert_ne by exact Hne. apply Hint.
  - intros p o'. simpl.
    destruct (decide (CartItem.product x = p)) as [<- | Hne].
    + rewrite lookup_insert_eq. intros H. inversion H. simpl. lia.
    + rewrite lookup_insert_ne by exact Hne. intros Hp.
      specialize (Hord _ _ Hp). simpl in Hord.
      destruct (Pos.eqb_spec (CartItem.product x) p); [contradiction | lia].
Qed.

Lemma commit_throws (items : list CartItem.t) :
  forall w,
    (forall item, In item items -> is_Some (heap w !! CartItem.product item)) ->
    (forall item, In item items -> 0 <= CartItem.quantity item) ->
    (forall p o, heap w !! p = Some o -> in_int (Product.quantity o) = true) ->
    (exists p o, heap w !! p = Some o /\
                 0 <= Product.quantity o < ordered p items) ->
    fst (for_each items
           (fun item => reduceQuantity (CartItem.product item) (CartItem.quantity item)) w)
    = Throw "Not enough stock.".
Proof.
  induction items as [| x rest IH]; intros w Hex Hq Hint (p & o' & Hp & Hover).
  - simpl in Hover. lia.
  - destruct (Hex x (or_introl eq_refl)) as [o Ho].
    pose proof (Hq x (or_introl eq_refl)) as Hqx.
    simpl.
    destruct (Z.ltb_spec (Product.quantity o) (CartItem.quantity x)) as [Hlt | Hle].
    + apply fst_bind_Throw. unfold reduceQuantity.
      rewrite (bind_Return _ _ _ _ _ (deref_Some _ _ _ Ho)).
      apply Z.ltb_lt in Hlt. rewrite Hlt. reflexivity.
    + assert (Hrange : 0 <= CartItem.quantity x <= Product.quantity o) by lia.
      rewrite (bind_Return _ _ _ _ _
                 (reduceQuantity_returns w _ o _ Ho Hrange (Hint _ _ Ho))).
      apply IH.
      * intros item Hin. simpl.
        destruct (decide (CartItem.product x = CartItem.product item)) as [<- | Hne].
        -- rewrite lookup_insert_eq. eauto.
        -- rewrite lookup_insert_ne by exact Hne. apply Hex. right. exact Hin.
      * intros item Hin. apply Hq. right. exact Hin.
      * intros p0 o0. simpl.
        destruct (decide (CartItem.product x = p0)) as [<- | Hne].
        -- rewrite lookup_insert_eq. intros H. inversion H.
           apply in_int_after; [lia | apply (Hint _ _ Ho)].
        -- rewrite lookup_insert_ne by exact Hne. apply Hint.
      * simpl in Hover.
        destruct (Pos.eqb_spec (CartItem.product x) p) as [Heq | Hne].
        -- subst p. rewrite Ho in Hp. inversion Hp; subst o'.
           eexists _, _. split; [simpl; apply lookup_insert_eq |]. simpl. lia.
        -- exists p, o'. split; [simpl; rewrite lookup_insert_ne by exact Hne; exact Hp | lia].
Qed.

Lemma receipt_lines_return (items : list CartItem.t) :
  forall w,
    (forall item, In item items -> is_Some (heap w !! CartItem.product item)) ->
    for_each items receipt_line w
    = (Return tt,
       set_cout (fold_left put (flat_map (receipt_insertions (heap w)) items) (cout w)) w).
Proof.
  induction items as [| x rest IH]; intros w Hex.
  - simpl. unfold ret. rewrite set_cout_cout. reflexivity.
  - destruct (Hex x (or_introl eq_refl)) as [o Ho].
    assert (Hx : receipt_line x w
                 = (Return tt,
                    set_cout (fold_left put (receipt_insertions (heap w) x) (cout w)) w)).
    { unfold receipt_line, receipt_insertions. rewrite Ho.
      rewrite (bind_Return _ _ _ _ _ (getName_run _ _ _ Ho)).
      rewrite (bind_Return _ _ _ _ _ (getTotalPrice_run _ _ _ Ho)).
      reflexivity. }
    simpl. rewrite (bind_Return _ _ _ _ _ Hx).
    rewrite IH by (intros item Hin; apply (Hex item); right; exact Hin).
    cbn [heap cout set_cout]. rewrite fold_left_app. reflexivity.
Qed.

Lemma commit_and_report_returns (subtotal shippingFee : double) (w : World) :
  (forall item, In item (cart w) -> is_Some (heap w !! CartItem.product item)) ->
  (forall item, In item (cart w) -> 0 <= CartItem.quantity item) ->
  (forall p o, heap w !! p = Some o -> in_int (Product.quantity o) = true) ->
  (forall p o, heap w !! p = Some o -> ordered p (cart w) <= Product.quantity o) ->
  (Customer.balance (customer w) <? subtotal + shippingFee)%float = false ->
  exists w', commit_and_report subtotal shippingFee w = (Return tt, w').
Proof.
  intros Hex Hq Hint Hord Hb.
  destruct (commit_returns (cart w) w Hex Hq Hint Hord) as [w2 Hcommit].
  assert (Hcart2 : cart w2 = cart w).
  { change w2 with (snd (Return tt, w2)). rewrite <- Hcommit.
    apply (keeps_for_each cart). intros item. apply keeps_reduceQuantity. reflexivity. }
  assert (Hcust2 : customer w2 = customer w).
  { change w2 with (snd (Return tt, w2)). rewrite <- Hcommit.
    apply (keeps_for_each customer). intros item. apply keeps_reduceQuantity. reflexivity. }
  assert (Hex2 : forall item, In item (cart w) -> is_Some (heap w2 !! CartItem.product item)).
  { intros item Hin. destruct (Hex item Hin) as [o Ho].
    rewrite (commit_loop _ _ _ Hcommit _ _ Ho). eauto. }
  unfold commit_and_report, getItems.
  rewrite (bind_Return (gets cart) _ w (cart w) w eq_refl).
  rewrite (bind_Return _ _ _ _ _ Hcommit).
  set (w3 := set_customer
               (Customer.mk (Customer.name (customer w2))
                  (Customer.balance (customer w2) - (subtotal + shippingFee))%float) w2).
  assert (Hdebit : deductBalance (subtotal + shippingFee)%float w2 = (Return tt, w3)).
  { unfold deductBalance, bind, gets, modify. rewrite Hcust2, Hb. subst w3.
    rewrite Hcust2. reflexivity. }
  rewrite (bind_Return _ _ _ _ _ Hdebit).
  rewrite (bind_Return _ _ _ _ _ (getShippableItems_run w3)).
  fold (manifest_of (heap w3) (cart w3)).
  assert (Hship : exists w4,
             (match manifest_of (heap w3) (cart w3) with
              | [] => ret tt
              | _ :: _ => ship (manifest_of (heap w3) (cart w3))
              end) w3 = (Return tt, w4) /\ heap w4 = heap w2 /\ cart w4 = cart w).
  { pose proof (ship_run _ w3 (manifest_entries_ok (heap w3) (cart w3))) as Hrun.
    destruct (manifest_of (heap w3) (cart w3)) as [| e m].
    - exists w3. subst w3. simpl. auto.
    - eexists. split; [exact Hrun |]. subst w3. simpl. auto. }
  destruct Hship as (w4 & Hship & Hh4 & Hc4).
  rewrite (bind_Return _ _ _ _ _ Hship).
  rewrite (bind_Return (print _) _ w4 tt _ eq_refl).
  rewrite (bind_Return (gets cart) _ _ _ _ eq_refl).
  cbn [cart set_cout]. rewrite Hc4.
  match goal with
  | |- exists _, (_ <- for_each _ receipt_line;; _) ?w5 = _ =>
      assert (Hex5 : forall item, In item (cart w) ->
                                  is_Some (heap w5 !! CartItem.product item))
        by (cbn [heap set_cout]; rewrite Hh4; exact Hex2);
      rewrite (bind_Return _ _ _ _ _ (receipt_lines_return (cart w) w5 Hex5))
  end.
  eexists. reflexivity.
Qed.

(** X7: a checkout goes through when the cart is not empty, its items
    pass the validation loop, no quantity is negative, every stock is an
    [int], for every product the lines of the cart together order no more
    than its stock, and the balance is not below subtotal + shipping fee. *)
Theorem checkout_returns (w w1 : World) :
  cart w <> [] ->
  for_each (cart w) validate w = (Return tt, w1) ->
  (forall item, In item (cart w) -> 0 <= CartItem.quantity item) ->
  (forall p o, heap w !! p = Some o -> in_int (Product.quantity o) = true) ->
  (forall p o, heap w !! p = Some o -> ordered p (cart w) <= Product.quantity o) ->
  (Customer.balance (customer w)
   <? fsum (map (line_total (heap w)) (cart w))
      + fsum (map (shipping_charge (heap w))
                  (List.filter (casts_to_Shippable (heap w)) (cart w))))%float = false ->
  exists w', checkout w = (Return tt, w').
Proof.
  intros Hne Hv Hq Hint Hord Hb.
  pose proof (validation_frame (cart w) w) as Hfr. rewrite Hv in Hfr. simpl in Hfr.
  destruct Hfr as (Hh & Hc & Hcu & _).
  assert (Hex : forall item, In item (cart w) -> is_Some (heap w !! CartItem.product item)).
  { intros item Hin. destruct (validation_passed _ _ _ Hv item Hin) as (o & Ho & _). eauto. }
  assert (Hhas : forallb (has_product (heap w)) (cart w) = true).
  { apply forallb_forall. intros item Hin. destruct (Hex item Hin) as [o Ho].
    unfold has_product. rewrite Ho. reflexivity. }
  rewrite checkout_unfold, Hv.
  unfold calculateSubtotal.
  rewrite (bind_Return (gets cart) _ w1 (cart w1) w1 eq_refl), calculateSubtotal_loop.
  rewrite calculateShippingFee_run, Hh, Hc, Hcu, Hhas.
  fold (fsum (map (line_total (heap w)) (cart w))). rewrite Hb.
  destruct (cart w) as [| x rest] eqn:Hcart; [congruence |]. rewrite <- Hcart in *.
  apply commit_and_report_returns; rewrite ?Hh, ?Hc, ?Hcu; assumption.
Qed.

(** The catalog of [main] holds its four products and nothing else. *)
Lemma catalog_inv (p : ptr) (o : Product.t) :
  catalog !! p = Some o ->
  (p = 1%positive /\ o = cheese) \/ (p = 2%positive /\ o = biscuits) \/
  (p = 3%positive /\ o = tv) \/ (p = 4%positive /\ o = scratchCard).
Proof.
  intros Hp.
  destruct (decide (p = 1%positive)) as [-> | H1]; [inversion Hp; auto |].
  destruct (decide (p = 2%positive)) as [-> | H2]; [inversion Hp; auto |].
  destruct (decide (p = 3%positive)) as [-> | H3]; [inversion Hp; auto 6 |].
  destruct (decide (p = 4%positive)) as [-> | H4]; [inversion Hp; auto 6 |].
  unfold catalog in Hp.
  rewrite !lookup_insert_ne in Hp by congruence. rewrite lookup_empty in Hp.
  discriminate Hp.
Qed.

(** Scenario S1 goes through. *)
Lemma checkout_returns_witness :
  exists w', checkout use_case_1_world = (Return tt, w').
Proof.
  apply (checkout_returns use_case_1_world use_case_1_world).
  - discriminate.
  - reflexivity.
  - intros item [<- | [<- | [<- | []]]]; simpl; lia.
  - intros p o Hp.
    destruct (catalog_inv p o Hp) as [[-> ->] | [[-> ->] | [[-> ->] | [-> ->]]]];
      reflexivity.
  - intros p o Hp.
    destruct (catalog_inv p o Hp) as [[-> ->] | [[-> ->] | [[-> ->] | [-> ->]]]];
      vm_compute; discriminate.
  - vm_compute. reflexivity.
Defined.

(** X8: a commit that fails, in general.  When the items of the cart pass
    the validation loop, no quantity is negative, every stock is an [int]
    and the balance suffices, but the lines for the product of some item
    together order more than its stock, [checkout] throws
    "Not enough stock." from its commit. *)
Theorem checkout_oversold (w w1 : World) :
  for_each (cart w) validate w = (Return tt, w1) ->
  (forall item, In item (cart w) -> 0 <= CartItem.quantity item) ->
  (forall p o, heap w !! p = Some o -> in_int (Product.quantity o) = true) ->
  (Customer.balance (customer w)
   <? fsum (map (line_total (heap w)) (cart w))
      + fsum (map (shipping_charge (heap w))
                  (List.filter (casts_to_Shippable (heap w)) (cart w))))%float = false ->
  (exists item o,
     In item (cart w) /\ heap w !! CartItem.product item = Some o /\
     Product.quantity o < ordered (CartItem.product item) (cart w)) ->
  fst (checkout w) = Throw "Not enough stock.".
Proof.
  intros Hv Hq Hint Hb (item & o & Hin & Ho & Hover).
  pose proof (validation_frame (cart w) w) as Hfr. rewrite Hv in Hfr. simpl in Hfr.
  destruct Hfr as (Hh & Hc & Hcu & _).
  assert (Hex : forall item, In item (cart w) -> is_Some (heap w !! CartItem.product item)).
  { intros i Hi. destruct (validation_passed _ _ _ Hv i Hi) as (o' & Ho' & _). eauto. }
  assert (Hhas : forallb (has_product (heap w)) (cart w) = true).
  { apply forallb_forall. intros i Hi. destruct (Hex i Hi) as [o' Ho'].
    unfold has_product. rewrite Ho'. reflexivity. }
  assert (Hstock : 0 <= Product.quantity o).
  { destruct (validation_passed _ _ _ Hv item Hin) as (o' & Ho' & Hle).
    rewrite Ho in Ho'. inversion Ho'; subst o'. specialize (Hq item Hin). lia. }
  rewrite checkout_unfold, Hv.
  unfold calculateSubtotal.
  rewrite (bind_Return (gets cart) _ w1 (cart w1) w1 eq_refl), calculateSubtotal_loop.
  rewrite calculateShippingFee_run, Hh, Hc, Hcu, Hhas.
  fold (fsum (map (line_total (heap w)) (cart w))). rewrite Hb.
  destruct (cart w) as [| x rest] eqn:Hcart; [destruct Hin |]. rewrite <- Hcart in *.
  unfold commit_and_report, getItems.
  rewrite (bind_Return (gets cart) _ w1 (cart w1) w1 eq_refl).
  apply fst_bind_Throw. rewrite Hc.
  apply commit_throws; rewrite ?Hh; try assumption.
  exists (CartItem.product item), o. split; [exact Ho | lia].
Qed.

(** Two lines of three biscuits out of five. *)
Lemma checkout_oversold_witness :
  fst (checkout (set_cart [CartItem.mk 2 3; CartItem.mk 2 3] (main_world 2000)))
  = Throw "Not enough stock.".
Proof.
  apply (checkout_oversold _ (set_cart [CartItem.mk 2 3; CartItem.mk 2 3] (main_world 2000))).
  - reflexivity.
  - intros item [<- | [<- | []]]; simpl; lia.
  - intros p o Hp.
    destruct (catalog_inv p o Hp) as [[-> ->] | [[-> ->] | [[-> ->] | [-> ->]]]];
      reflexivity.
  - vm_compute. reflexivity.
  - exists (CartItem.mk 2 3), biscuits. split; [left; reflexivity |].
    split; [reflexivity | simpl; lia].
Defined.

(** Scenario S2: the rejected checkout of the second use case. *)
Lemma checkout_rejection_keeps_store_witness :
  heap (snd (checkout use_case_2_world)) = heap use_case_2_world /\
  customer (snd (checkout use_case_2_world)) = customer use_case_2_world.
Proof.
  apply (checkout_rejection_keeps_store use_case_2_world "Insufficient customer balance.").
  - repeat constructor; simpl; intuition discriminate.
  - reflexivity.
Defined.

(** ** main *)

(** Whatever the clock reads, [main] exits with 0, having written nothing
    to [cout] and the message of the rejected checkout to [cerr]. *)
Example main_run (clock : nat -> time_t) :
  main clock = (Return 0, EmptyString, "Error: Insufficient customer balance." +:+ nl).
Proof. vm_compute. reflexivity. Qed.

(** ** Filling the cart *)

Lemma addToCart_run (w : World) (p : ptr) (q : Z) :
  addToCart p q w =
    match heap w !! p with
    | Some o =>
        if Product.quantity o <? q then (Throw "Insufficient stock.", w)
        else (Return tt, set_cart (cart w ++ [CartItem.mk p q]) w)
    | None => (Undefined, w)
    end.
Proof.
  unfold addToCart, getQuantity, deref, bind.
  destruct (heap w !! p) as [o |]; [| reflexivity].
  simpl. destruct (Product.quantity o <? q); reflexivity.
Qed.

(** X9: a line that [addToCart] accepts adds its line total to the
    subtotal and, when its product is a [ShippableProduct], its charge to
    the shipping fee and one entry at the end of the manifest; for any other
    product the fee and the manifest stay as they were. *)
Theorem addToCart_then_prices (w w' : World) (p : ptr) (q : Z)
    (subtotal shippingFee : double) (manifest : list (ptr * Z)) :
  addToCart p q w = (Return tt, w') ->
  fst (calculateSubtotal w) = Return subtotal ->
  fst (calculateShippingFee w) = Return shippingFee ->
  fst (getShippableItems w) = Return manifest ->
  exists o,
    heap w !! p = Some o /\
    fst (calculateSubtotal w')
      = Return (subtotal + Product.price o * double_of_int q)%float /\
    fst (calculateShippingFee w')
      = Return (match Product.class o with
                | ShippableProduct weight =>
                    (shippingFee + weight * double_of_int q * 10)%float
                | _ => shippingFee
                end) /\
    fst (getShippableItems w')
      = Return (match Product.class o with
                | ShippableProduct _ => manifest ++ [(p, q)]
                | _ => manifest
                end).
Proof.
  rewrite addToCart_run. intros Hadd Hs Hf Hm.
  destruct (heap w !! p) as [o |] eqn:Ho; [| discriminate Hadd].
  destruct (Product.quantity o <? q); [discriminate Hadd |].
  inversion Hadd; subst w'; clear Hadd.
  exists o. split; [reflexivity |].
  destruct (calculateSubtotal_outcome w) as (_ & Hsome & Hnone).
  destruct (forallb (has_product (heap w)) (cart w)) eqn:Hhas;
    [| rewrite (Hnone eq_refl) in Hs; discriminate Hs].
  rewrite (Hsome eq_refl) in Hs. inversion Hs; subst subtotal; clear Hs.
  rewrite calculateShippingFee_run in Hf. inversion Hf; subst shippingFee; clear Hf.
  rewrite getShippableItems_run in Hm. inversion Hm; subst manifest; clear Hm.
  assert (Hcast : casts_to_Shippable (heap w) (CartItem.mk p q)
                  = Product.derives_Shippable o).
  { unfold casts_to_Shippable. simpl. rewrite Ho. reflexivity. }
  split; [| split].
  - destruct (calculateSubtotal_outcome (set_cart (cart w ++ [CartItem.mk p q]) w))
      as (_ & Hsome' & _).
    rewrite Hsome'.
    + simpl. unfold fsum. rewrite map_app, fold_left_app. simpl.
      unfold line_total at 2. simpl. rewrite Ho. reflexivity.
    + simpl. rewrite forallb_app, Hhas. simpl. unfold has_product. simpl.
      rewrite Ho. reflexivity.
  - rewrite calculateShippingFee_run. simpl.
    rewrite List.filter_app. simpl. rewrite Hcast.
    unfold Product.derives_Shippable.
    destruct (Product.class o) as [| weight |] eqn:Hclass;
      rewrite ?app_nil_r; try reflexivity.
    unfold fsum. rewrite map_app, fold_left_app. simpl.
    unfold shipping_charge at 2. simpl. rewrite Ho. destruct o; simpl in Hclass.
    rewrite Hclass. reflexivity.
  - rewrite getShippableItems_run. simpl.
    rewrite List.filter_app. simpl. rewrite Hcast.
    unfold Product.derives_Shippable.
    destruct (Product.class o); rewrite ?app_nil_r; try reflexivity.
    rewrite map_app. reflexivity.
Qed.

(** A TV added to the cart of scenario S1: 1000 more in the subtotal, 100
    more in the fee. *)
Lemma addToCart_then_prices_witness :
  fst (calculateSubtotal use_case_2_world) = Return 1400%float /\
  fst (calculateShippingFee use_case_2_world) = Return 111%float.
Proof.
  destruct (addToCart_then_prices
              (set_cart (cart use_case_1_world) (main_world 1000)) use_case_2_world
              3 1 400 11 [(1%positive, 2); (2%positive, 1)]
              eq_refl ltac:(vm_compute; reflexivity) ltac:(vm_compute; reflexivity)
              ltac:(vm_compute; reflexivity))
    as (o & Ho & Hs & Hf & _).
  inversion Ho; subst o. rewrite Hs, Hf. split; vm_compute; reflexivity.
Defined.

(** X11: a run of [addToCart] calls that all return has appended their
    items to the cart in the order of the calls and changed no product;
    each quantity was at most the stock of its product.  When a call is
    rejected the run ends there with "Insufficient stock.": the items of the
    calls before it are in the cart, those after it are not. *)
Theorem addAll_spec (requests : list (ptr * Z)) (w : World) :
  (forall w',
     addAll requests w = (Return tt, w') ->
     w' = set_cart (cart w ++ map requested requests) w /\
     forall r, In r requests ->
       exists o, heap w !! fst r = Some o /\ snd r <= Product.quantity o) /\
  (forall pre r post w1 o,
     requests = pre ++ r :: post ->
     addAll pre w = (Return tt, w1) ->
     heap w !! fst r = Some o ->
     Product.quantity o < snd r ->
     addAll requests w = (Throw "Insufficient stock.", w1)).
Proof.
  assert (Hok : forall reqs w0 w',
            addAll reqs w0 = (Return tt, w') ->
            w' = set_cart (cart w0 ++ map requested reqs) w0 /\
            forall r, In r reqs ->
              exists o, heap w0 !! fst r = Some o /\ snd r <= Product.quantity o).
  { induction reqs as [| r rest IH]; intros w0 w' H.
    - inversion H; subst w'. simpl. rewrite app_nil_r.
      split; [destruct w0; reflexivity | intros r []].
    - unfold addAll in H. simpl in H.
      apply bind_Return_inv in H as ([] & w1 & Hadd & Hrest).
      rewrite addToCart_run in Hadd.
      destruct (heap w0 !! fst r) as [o |] eqn:Ho; [| discriminate Hadd].
      destruct (Z.ltb_spec (Product.quantity o) (snd r)); [discriminate Hadd |].
      inversion Hadd; subst w1; clear Hadd.
      apply IH in Hrest as [-> Hall]. simpl. rewrite <- app_assoc. simpl.
      split; [reflexivity |].
      intros r' [<- | Hin]; [eauto |]. apply (Hall r' Hin). }
  split; [apply Hok |].
  intros pre r post w1 o -> Hpre Ho Hq.
  unfold addAll in *. rewrite for_each_app, (bind_Return _ _ _ _ _ Hpre). simpl.
  apply Hok in Hpre as [-> _].
  unfold bind. rewrite addToCart_run. simpl. rewrite Ho.
  apply Z.ltb_lt in Hq. rewrite Hq. reflexivity.
Qed.

(** The adds of scenario S1, and scenario S5 after them. *)
Lemma addAll_spec_witness :
  use_case_1_world =
    set_cart (cart (main_world 2000)
              ++ map requested [(1%positive, 2); (2%positive, 1); (4%positive, 1)])
      (main_world 2000) /\
  addAll [(1%positive, 2); (2%positive, 6); (4%positive, 1)] (main_world 2000)
    = (Throw "Insufficient stock.", set_cart [CartItem.mk 1 2] (main_world 2000)).
Proof.
  split.
  - apply (proj1 (addAll_spec [(1%positive, 2); (2%positive, 1); (4%positive, 1)]
                    (main_world 2000))).
    reflexivity.
  - apply (proj2 (addAll_spec [(1%positive, 2); (2%positive, 6); (4%positive, 1)]
                    (main_world 2000))
             [(1%positive, 2)] (2%positive, 6) [(4%positive, 1)]
             (set_cart [CartItem.mk 1 2] (main_world 2000)) biscuits);
      [reflexivity | reflexivity | reflexivity | simpl; lia].
Defined.

(** ** What checkout never changes *)

Lemma stocks_only_refl (w : World) : stocks_only w w.
Proof.
  repeat split. intros p. destruct (heap w !! p) as [o |]; [| reflexivity].
  exists (Product.quantity o). destruct o; auto.
Qed.

Lemma stocks_only_trans (w1 w2 w3 : World) :
  stocks_only w1 w2 -> stocks_only w2 w3 -> stocks_only w1 w3.
Proof.
  intros (Hc12 & Hn12 & Hh12) (Hc23 & Hn23 & Hh23).
  split; [congruence | split; [congruence |]].
  intros p. specialize (Hh12 p). specialize (Hh23 p).
  destruct (heap w1 !! p) as [o |].
  - destruct Hh12 as (q & Hq & Hpos). rewrite Hq in Hh23.
    destruct Hh23 as (q' & Hq' & Hpos').
    exists q'. split; [rewrite Hq'; reflexivity |]. simpl in Hpos'. auto.
  - rewrite Hh12 in Hh23. exact Hh23.
Qed.

Lemma stocks_only_keeps {A} (m : M A) :
  keeps heap m -> keeps cart m -> keeps customer m -> changes_stocks_only m.
Proof.
  intros Hh Hc Hcu w. destruct (stocks_only_refl w) as (_ & _ & Hrefl).
  unfold stocks_only. rewrite Hh, Hc, Hcu. auto.
Qed.

Lemma stocks_only_bind {A B} (m : M A) (k : A -> M B) :
  changes_stocks_only m -> (forall a, changes_stocks_only (k a)) ->
  changes_stocks_only (x <- m;; k x).
Proof.
  intros Hm Hk w. unfold bind. specialize (Hm w).
  destruct (m w) as [[a | what |] w1]; simpl in *; [| exact Hm ..].
  apply (stocks_only_trans _ _ _ Hm), Hk.
Qed.

Lemma stocks_only_for_each {A} (l : list A) (body : A -> M unit) :
  (forall x, changes_stocks_only (body x)) -> changes_stocks_only (for_each l body).
Proof.
  intros Hbody. induction l as [| x l IH]; simpl.
  - intros w. apply stocks_only_refl.
  - apply stocks_only_bind; [apply Hbody | intros _; exact IH].
Qed.

Lemma stocks_only_reduceQuantity p amount : changes_stocks_only (reduceQuantity p amount).
Proof.
  intros w. unfold reduceQuantity, deref, bind.
  destruct (heap w !! p) as [o |] eqn:Ho; [| apply stocks_only_refl].
  destruct (Z.ltb_spec (Product.quantity o) amount); [apply stocks_only_refl |].
  destruct (in_int _); [| apply stocks_only_refl].
  simpl. repeat split. intros p'. simpl.
  destruct (decide (p = p')) as [<- | Hne].
  - rewrite Ho, lookup_insert_eq. eexists. split; [reflexivity | lia].
  - rewrite lookup_insert_ne by exact Hne.
    destruct (stocks_only_refl w) as (_ & _ & Hrefl). apply Hrefl.
Qed.

Lemma stocks_only_deductBalance amount : changes_stocks_only (deductBalance amount).
Proof.
  intros w. unfold deductBalance, bind, gets, modify.
  destruct (_ <? _)%float; [apply stocks_only_refl |].
  destruct (stocks_only_refl w) as (_ & _ & Hrefl).
  repeat split. exact Hrefl.
Qed.

